(** * BizzBook: stock reservation and invoice creation

    A shallow embedding of the Express/Mongoose handlers of the BizzBook
    backend (routes/productRouter.js, routes/invoiceRouter.js,
    routes/businessRouter.js, routes/userRouter.js and the Mongoose schemas
    of models/), together with the properties the specification states
    about the purchase workflow.

    Modelling conventions.
    - A JavaScript [Number] that stands for a quantity, a price or a
      timestamp is an exact integer ([Z]); the workflow only adds,
      subtracts, multiplies and compares them.
    - Document ids are strings that Mongoose can cast to an ObjectId, so
      that [findById] never raises a cast error; the quantity of a line
      item of an order is a number.
    - A handler is a tree of database commands ([Async]): every [await] of
      the source is one [Await] node, and the code between two awaits runs
      without interruption, as it does on the Node.js event loop.
    - The store itself never fails; the only rejected commands are the ones
      Mongoose rejects by its own rules (schema validation, unique
      indexes, saving a document that is gone). *)

From stdpp Require Import gmap strings list fin_maps pretty.
From Stdlib Require Import ZArith Lia.

Local Open Scope Z_scope.

(** ** Data model (models/userModel.js, models/businessModel.js and the
       product and invoice schemas) *)

Inductive Role : Type := admin | manager | employee | customer.

#[global] Instance Role_eq_dec : EqDecision Role.
Proof. solve_decision. Defined.

Module User.
Record t : Type := mk
    { name : string;
      email : string;
      password : string;
      role : Role;
      businessId : option string }.
End User.

Module Business.
Record t : Type := mk
    { name : string;
      address : option string;
      phone : option string;
      email : option string;
      createdAt : Z;
      owner : string }.
End Business.

Module Product.
Record t : Type := mk
    { name : string;
      description : option string;
      price : Z;
      quantity : Z;
      businessId : string;
      createdAt : Z }.

(** [product.quantity = q] on a loaded document. *)
Definition set_quantity (q : Z) (p : t) : t :=
    mk (name p) (description p) (price p) q (businessId p) (createdAt p).
End Product.

Module InvoiceLine.
Record t : Type := mk
    { product : string;
      quantity : Z;
      pricePerUnit : Z;
      totalPrice : Z }.
End InvoiceLine.

Module Invoice.
Record t : Type := mk
    { _id : string;
      customer : string;
      business : string;
      products : list InvoiceLine.t;
      totalAmount : Z;
      purchaseDate : Z;
      invoiceNumber : string }.
End Invoice.

(** The four collections of the database.  Users, businesses and products
    are keyed by their [_id]; invoices carry theirs and are kept in
    insertion order, which is the order [find()] returns them in. *)
Record World : Type := mkWorld
  { users : gmap string User.t;
    businesses : gmap string Business.t;
    products : gmap string Product.t;
    invoices : list Invoice.t }.

Definition with_products (ps : gmap string Product.t) (w : World) : World :=
  mkWorld (users w) (businesses w) ps (invoices w).

Definition with_invoices (invs : list Invoice.t) (w : World) : World :=
  mkWorld (users w) (businesses w) (products w) invs.

Definition with_businesses (bs : gmap string Business.t) (w : World) : World :=
  mkWorld (users w) bs (products w) (invoices w).

Definition with_users (us : gmap string User.t) (w : World) : World :=
  mkWorld us (businesses w) (products w) (invoices w).

(** Quantity on hand of a product, when the product exists. *)
Definition quantityOnHand (w : World) (id : string) : option Z :=
  Product.quantity <$> products w !! id.

(** ** JavaScript values, errors and responses *)

(** A JSON value of a request body, as far as [typeof] tells them apart. *)
Inductive JsValue : Type :=
  | JsUndefined
  | JsNull
  | JsBool (b : bool)
  | JsNumber (z : Z)
  | JsString (s : string).

(** The errors Mongoose or the handlers themselves raise; a handler reports
    them as [err.message] from its [catch] block. *)
Inductive JsError : Type :=
  | ValidationError (model : string) (paths : list string)
  | DuplicateKey (collection field value : string)
  | DocumentNotFound (id : string)
  | TypeErrorNull (property : string).

(** The result of an awaited promise. *)
Inductive Outcome (X : Type) : Type :=
  | Resolved (x : X)
  | Rejected (e : JsError).
Arguments Resolved {X} x.
Arguments Rejected {X} e.

(** The verified token's payload, [req.user] (routes/userRouter.js signs
    [{ userId, role }]). *)
Record AuthUser : Type := mkAuthUser
  { userId : string;
    role : Role }.

(** Documents after [populate]: a reference is replaced by the selected
    fields of the document it points to, or by [null] when it is gone. *)
Module Populated.
Record UserRef : Type := mkUser
  { user_id : string; user_name : string; user_email : string }.
Record BusinessRef : Type := mkBusiness
  { business_id : string; business_name : string }.
Record ProductRef : Type := mkProduct
  { product_id : string; product_name : string }.
Record Line : Type := mkLine
  { product : option ProductRef;
    quantity : Z;
    pricePerUnit : Z;
    totalPrice : Z }.
Record Invoice : Type := mkInvoice
  { _id : string;
    customer : option UserRef;
    business : option BusinessRef;
    products : list Line;
    totalAmount : Z;
    purchaseDate : Z;
    invoiceNumber : string }.
Record Business : Type := mkBusinessDoc
  { b_id : string;
    b_doc : Business.t;
    b_owner : option UserRef }.
End Populated.

(** The JSON document a handler sends. *)
Inductive Body : Type :=
  | Message (message : string)
  | MessageError (message : string) (error : JsError)
  | MessageProduct (message : string) (id : string) (product : Product.t)
  | MessageRemaining (message : string) (remaining : Z)
  | MessageInvoice (message : string) (invoice : Invoice.t)
  | MessageBusiness (message : string) (id : string) (business : Business.t)
  | TokenUser (token : string) (user : AuthUser)
  | ProductDoc (id : string) (product : Product.t)
  | ProductDocs (docs : list (string * Product.t))
  | InvoiceDoc (invoice : Populated.Invoice)
  | InvoiceDocs (docs : list Populated.Invoice)
  | BusinessDoc (business : Populated.Business)
  | BusinessDocs (docs : list Populated.Business)
  | UserDocs (docs : list (string * User.t)).

Record Response : Type := mkResponse
  { status : Z;
    body : Body }.

(** ** Request bodies and new documents *)

(** One entry of [req.body.products]: [{ product, quantity }]. *)
Module Item.
Record t : Type := mk
  { product : string;
    quantity : Z }.
End Item.

(** The body of [POST /invoice].  The handler destructures [products] and
    [business] only; [customer] and [invoiceNumber] are fields a client may
    send all the same. *)
Module InvoiceBody.
Record t : Type := mk
  { products : option (list Item.t);
    business : option string;
    customer : option string;
    invoiceNumber : option string }.
End InvoiceBody.

(** [new invoiceModel({ customer, business, products, totalAmount })]
    before it is saved: [_id] and [purchaseDate] were given their defaults
    by the constructor. *)
Module InvoiceDraft.
Record t : Type := mk
  { _id : string;
    customer : string;
    business : option string;
    products : list InvoiceLine.t;
    totalAmount : Z;
    purchaseDate : Z;
    invoiceNumber : option string }.
End InvoiceDraft.

(** The body of [POST /product] and of [PUT /product/:id]; an absent field
    is [None]. *)
Module ProductBody.
Record t : Type := mk
  { name : option string;
    description : option string;
    price : option Z;
    quantity : option Z;
    businessId : option string }.
End ProductBody.

(** The body of [POST /business] and of [PUT /business/:id], and the
    document [new businessModel] builds from it. *)
Module BusinessBody.
Record t : Type := mk
  { name : option string;
    address : option string;
    phone : option string;
    email : option string;
    owner : option string }.
End BusinessBody.

Module SignupBody.
Record t : Type := mk
  { name : string;
    email : string;
    password : string;
    role : option Role;
    businessId : option string }.
End SignupBody.

(** What the runtime hands to a constructor: the fresh ObjectId and the
    readings of [Date.now()] for the schema defaults and for the invoice's
    [pre('validate')] hook. *)
Record Env : Type := mkEnv
  { objectId : string;
    now : Z;
    nowValidate : Z }.

(** ** Database commands: one per awaited Mongoose call *)

Inductive Cmd : Type -> Type :=
  | UserFindOne (email : string) : Cmd (option (string * User.t))
  | UserFind : Cmd (list (string * User.t))
  | UserSave (id : string) (u : User.t) : Cmd unit
  | BusinessSave (id : string) (now : Z) (b : BusinessBody.t) : Cmd (string * Business.t)
  | BusinessFind : Cmd (list Populated.Business)
  | BusinessFindById (id : string) : Cmd (option Populated.Business)
  | BusinessFindByIdAndUpdate (id : string) (b : BusinessBody.t) : Cmd (option Business.t)
  | BusinessFindByIdAndDelete (id : string) : Cmd (option Business.t)
  | ProductFind : Cmd (list (string * Product.t))
  | ProductFindById (id : string) : Cmd (option Product.t)
  | ProductSaveNew (id : string) (now : Z) (b : ProductBody.t) : Cmd Product.t
  | ProductSaveQuantity (id : string) (q : Z) : Cmd unit
  | ProductFindByIdAndUpdate (id : string) (b : ProductBody.t) : Cmd (option Product.t)
  | ProductFindByIdAndDelete (id : string) : Cmd (option Product.t)
  | InvoiceSave (d : InvoiceDraft.t) (now : Z) : Cmd Invoice.t
  | InvoiceFind : Cmd (list Populated.Invoice)
  | InvoiceFindById (id : string) : Cmd (option Populated.Invoice).

(** A handler: straight-line code between awaits, a command at each await. *)
Inductive Async (R : Type) : Type :=
  | Done (r : R)
  | Await {X : Type} (c : Cmd X) (k : Outcome X -> Async R).
Arguments Done {R} r.
Arguments Await {R X} c k.

(** [try { x = await c; k x } catch (err) { handler err }]. *)
Definition await {R X : Type} (c : Cmd X) (handler : JsError -> R)
    (k : X -> Async R) : Async R :=
  Await c (fun o => match o with
                    | Resolved x => k x
                    | Rejected e => Done (handler e)
                    end).

(** ** The store: what each command does to the collections *)

Definition populate_user (w : World) (id : string) : option Populated.UserRef :=
  (fun u => Populated.mkUser id (User.name u) (User.email u)) <$> users w !! id.

Definition populate_business (w : World) (id : string) : option Populated.BusinessRef :=
  (fun b => Populated.mkBusiness id (Business.name b)) <$> businesses w !! id.

Definition populate_product (w : World) (id : string) : option Populated.ProductRef :=
  (fun p => Populated.mkProduct id (Product.name p)) <$> products w !! id.

Definition populate_line (w : World) (l : InvoiceLine.t) : Populated.Line :=
  Populated.mkLine (populate_product w (InvoiceLine.product l))
    (InvoiceLine.quantity l) (InvoiceLine.pricePerUnit l) (InvoiceLine.totalPrice l).

(** [.populate('customer', 'name email').populate('business', 'name')
     .populate('products.product', 'name')] *)
Definition populate_invoice (w : World) (i : Invoice.t) : Populated.Invoice :=
  Populated.mkInvoice (Invoice._id i)
    (populate_user w (Invoice.customer i))
    (populate_business w (Invoice.business i))
    (populate_line w <$> Invoice.products i)
    (Invoice.totalAmount i) (Invoice.purchaseDate i) (Invoice.invoiceNumber i).

(** [.populate('owner', 'name email')] *)
Definition populate_owner (w : World) (ib : string * Business.t) : Populated.Business :=
  Populated.mkBusinessDoc ib.1 ib.2 (populate_user w (Business.owner ib.2)).

Definition findInvoice (w : World) (id : string) : option Invoice.t :=
  List.find (fun i => bool_decide (Invoice._id i = id)) (invoices w).

(** The invoice schema's [pre('validate')] hook: an absent (or empty)
    [invoiceNumber] becomes [`INV-${Date.now()}`]. *)
Definition preValidate (d : InvoiceDraft.t) (now : Z) : string :=
  match InvoiceDraft.invoiceNumber d with
  | Some s => if bool_decide (s = EmptyString) then "INV-" +:+ pretty now else s
  | None => "INV-" +:+ pretty now
  end.

(** [invoice.save()] of a new document: the hook, the [required]
    validators, then the insert under the unique indexes on [_id] and
    [invoiceNumber]. *)
Definition saveInvoice (d : InvoiceDraft.t) (now : Z) (w : World)
    : World * Outcome Invoice.t :=
  let number := preValidate d now in
  match InvoiceDraft.business d with
  | None => (w, Rejected (ValidationError "Invoice" ["business"]))
  | Some b =>
      let i := Invoice.mk (InvoiceDraft._id d) (InvoiceDraft.customer d) b
                 (InvoiceDraft.products d) (InvoiceDraft.totalAmount d)
                 (InvoiceDraft.purchaseDate d) number in
      if existsb (fun j => bool_decide (Invoice._id j = Invoice._id i)) (invoices w)
      then (w, Rejected (DuplicateKey "invoices" "_id" (Invoice._id i)))
      else if existsb (fun j => bool_decide (Invoice.invoiceNumber j = number)) (invoices w)
      then (w, Rejected (DuplicateKey "invoices" "invoiceNumber" number))
      else (with_invoices (invoices w ++ [i]) w, Resolved i)
  end.

(** The path of a [required] field that is absent. *)
Definition missing {A : Type} (path : string) (o : option A) : list string :=
  match o with
  | Some _ => []
  | None => [path]
  end.

(** [product.save()] of a new document: [name], [price] and [businessId]
    are required, [quantity] defaults to 0. *)
Definition saveNewProduct (id : string) (now : Z) (b : ProductBody.t) (w : World)
    : World * Outcome Product.t :=
  match ProductBody.name b, ProductBody.price b, ProductBody.businessId b with
  | Some n, Some pr, Some bid =>
      let p := Product.mk n (ProductBody.description b) pr
                 (default 0 (ProductBody.quantity b)) bid now in
      match products w !! id with
      | Some _ => (w, Rejected (DuplicateKey "products" "_id" id))
      | None => (with_products (<[id := p]> (products w)) w, Resolved p)
      end
  | n, pr, bid =>
      (w, Rejected (ValidationError "Product"
             (missing "name" n ++ missing "price" pr ++ missing "businessId" bid)))
  end.

(** [product.save()] after [product.quantity -= n]: only the modified path
    is written. *)
Definition saveProductQuantity (id : string) (q : Z) (w : World)
    : World * Outcome unit :=
  match products w !! id with
  | Some p => (with_products (<[id := Product.set_quantity q p]> (products w)) w, Resolved tt)
  | None => (w, Rejected (DocumentNotFound id))
  end.

(** [findByIdAndUpdate(id, req.body, { new: true })]: the fields present in
    the body replace the stored ones; no validator runs. *)
Definition updateProduct (b : ProductBody.t) (p : Product.t) : Product.t :=
  Product.mk (default (Product.name p) (ProductBody.name b))
    (match ProductBody.description b with
     | Some d => Some d
     | None => Product.description p
     end)
    (default (Product.price p) (ProductBody.price b))
    (default (Product.quantity p) (ProductBody.quantity b))
    (default (Product.businessId p) (ProductBody.businessId b))
    (Product.createdAt p).

Definition updateBusiness (b : BusinessBody.t) (d : Business.t) : Business.t :=
  Business.mk (default (Business.name d) (BusinessBody.name b))
    (match BusinessBody.address b with Some a => Some a | None => Business.address d end)
    (match BusinessBody.phone b with Some a => Some a | None => Business.phone d end)
    (match BusinessBody.email b with Some a => Some a | None => Business.email d end)
    (Business.createdAt d)
    (default (Business.owner d) (BusinessBody.owner b)).

(** [business.save()] of a new document: [name] and [owner] are required,
    [email] is under a unique index. *)
Definition saveNewBusiness (id : string) (now : Z) (b : BusinessBody.t) (w : World)
    : World * Outcome (string * Business.t) :=
  match BusinessBody.name b, BusinessBody.owner b with
  | Some n, Some o =>
      let d := Business.mk n (BusinessBody.address b) (BusinessBody.phone b)
                 (BusinessBody.email b) now o in
      match businesses w !! id with
      | Some _ => (w, Rejected (DuplicateKey "businesses" "_id" id))
      | None =>
          if existsb (fun e => bool_decide (Business.email e.2 = Business.email d))
               (map_to_list (businesses w))
          then (w, Rejected (DuplicateKey "businesses" "email"
                               (default "null" (Business.email d))))
          else (with_businesses (<[id := d]> (businesses w)) w, Resolved (id, d))
      end
  | n, o =>
      (w, Rejected (ValidationError "Business"
             (missing "name" n ++ missing "owner" o)))
  end.

Definition saveNewUser (id : string) (u : User.t) (w : World) : World * Outcome unit :=
  match users w !! id with
  | Some _ => (w, Rejected (DuplicateKey "users" "_id" id))
  | None =>
      if existsb (fun e => bool_decide (User.email e.2 = User.email u))
           (map_to_list (users w))
      then (w, Rejected (DuplicateKey "users" "email" (User.email u)))
      else (with_users (<[id := u]> (users w)) w, Resolved tt)
  end.

Definition exec {X : Type} (c : Cmd X) (w : World) : World * Outcome X :=
  match c in Cmd X return World * Outcome X with
  | UserFindOne email =>
      (w, Resolved (List.find (fun e => bool_decide (User.email e.2 = email))
                      (map_to_list (users w))))
  | UserFind => (w, Resolved (map_to_list (users w)))
  | UserSave id u => saveNewUser id u w
  | BusinessSave id now b => saveNewBusiness id now b w
  | BusinessFind => (w, Resolved (populate_owner w <$> map_to_list (businesses w)))
  | BusinessFindById id =>
      (w, Resolved ((fun b => populate_owner w (id, b)) <$> businesses w !! id))
  | BusinessFindByIdAndUpdate id b =>
      match businesses w !! id with
      | Some d => (with_businesses (<[id := updateBusiness b d]> (businesses w)) w,
                   Resolved (Some (updateBusiness b d)))
      | None => (w, Resolved None)
      end
  | BusinessFindByIdAndDelete id =>
      (with_businesses (delete id (businesses w)) w, Resolved (businesses w !! id))
  | ProductFind => (w, Resolved (map_to_list (products w)))
  | ProductFindById id => (w, Resolved (products w !! id))
  | ProductSaveNew id now b => saveNewProduct id now b w
  | ProductSaveQuantity id q => saveProductQuantity id q w
  | ProductFindByIdAndUpdate id b =>
      match products w !! id with
      | Some p => (with_products (<[id := updateProduct b p]> (products w)) w,
                   Resolved (Some (updateProduct b p)))
      | None => (w, Resolved None)
      end
  | ProductFindByIdAndDelete id =>
      (with_products (delete id (products w)) w, Resolved (products w !! id))
  | InvoiceSave d now => saveInvoice d now w
  | InvoiceFind => (w, Resolved (populate_invoice w <$> invoices w))
  | InvoiceFindById id => (w, Resolved (populate_invoice w <$> findInvoice w id))
  end.

(** Running one handler to completion with no other request in between. *)
Fixpoint run {R : Type} (w : World) (p : Async R) : World * R :=
  match p with
  | Done r => (w, r)
  | Await c k => let '(w', o) := exec c w in run w' (k o)
  end.

(** ** Handlers *)

Definition json (code : Z) (b : Body) : Response := mkResponse code b.

(** [catch (err) { res.status(500).json({ message, error: err.message }) }] *)
Definition failed (message : string) (e : JsError) : Response :=
  json 500 (MessageError message e).

(** *** routes/productRouter.js *)

Definition getProducts : Async Response :=
  await ProductFind (failed "Fetching products failed") (fun products =>
    Done (json 200 (ProductDocs products))).

Definition getProduct (id : string) : Async Response :=
  await (ProductFindById id) (failed "Fetching product failed") (fun product =>
    match product with
    | None => Done (json 404 (Message "Product not found"))
    | Some product => Done (json 200 (ProductDoc id product))
    end).

Definition createProduct (b : ProductBody.t) (env : Env) : Async Response :=
  await (ProductSaveNew (objectId env) (now env) b) (failed "Creation failed")
    (fun product =>
       Done (json 201 (MessageProduct "Product created" (objectId env) product))).

Definition putProduct (id : string) (b : ProductBody.t) : Async Response :=
  await (ProductFindByIdAndUpdate id b) (failed "Update failed") (fun updatedProduct =>
    match updatedProduct with
    | None => Done (json 404 (Message "Product not found"))
    | Some updatedProduct =>
        Done (json 200 (MessageProduct "Product updated" id updatedProduct))
    end).

Definition deleteProduct (id : string) : Async Response :=
  await (ProductFindByIdAndDelete id) (failed "Delete failed") (fun deletedProduct =>
    match deletedProduct with
    | None => Done (json 404 (Message "Product not found"))
    | Some _ => Done (json 200 (Message "Product deleted"))
    end).

(** [PATCH /product/:id/quantity]: purchase by reducing the quantity. *)
Definition purchase (id : string) (decrementBy : JsValue) : Async Response :=
  match decrementBy with
  | JsNumber decrementBy =>
      if decrementBy <=? 0
      then Done (json 400 (Message "decrementBy must be a positive number"))
      else
        await (ProductFindById id) (failed "Purchase failed") (fun product =>
          match product with
          | None => Done (json 404 (Message "Product not found"))
          | Some product =>
              if Product.quantity product =? 0
              then Done (json 400 (Message "Product is out of stock"))
              else if decrementBy >? Product.quantity product
              then Done (json 400 (Message ("Only " +:+ pretty (Product.quantity product)
                                            +:+ " item(s) in stock")))
              else
                let remaining := Product.quantity product - decrementBy in
                await (ProductSaveQuantity id remaining) (failed "Purchase failed")
                  (fun _ => Done (json 200 (MessageRemaining "Product purchased" remaining)))
          end)
  | _ => Done (json 400 (Message "decrementBy must be a positive number"))
  end.

(** *** routes/invoiceRouter.js *)

Definition unavailable (productId : string) : Response :=
  json 400 (Message ("Product unavailable or insufficient quantity: " +:+ productId)).

(** The [for (let item of products)] loop of [POST /invoice]; [k] is the
    code after the loop. *)
Fixpoint invoiceLoop (items : list Item.t) (totalAmount : Z)
    (invoiceProducts : list InvoiceLine.t)
    (k : Z -> list InvoiceLine.t -> Async Response) : Async Response :=
  match items with
  | [] => k totalAmount invoiceProducts
  | item :: rest =>
      let productId := Item.product item in
      let quantity := Item.quantity item in
      await (ProductFindById productId) (failed "Invoice creation failed") (fun product =>
        match product with
        | None => Done (unavailable productId)
        | Some product =>
            if Product.quantity product <? quantity
            then Done (unavailable productId)
            else
              let totalPrice := Product.price product * quantity in
              let line := InvoiceLine.mk productId quantity (Product.price product) totalPrice in
              await (ProductSaveQuantity productId (Product.quantity product - quantity))
                (failed "Invoice creation failed")
                (fun _ => invoiceLoop rest (totalAmount + totalPrice)
                            (invoiceProducts ++ [line]) k)
        end)
  end.

(** The code after the loop: build the invoice and save it. *)
Definition commitInvoice (user : AuthUser) (b : InvoiceBody.t) (env : Env)
    (totalAmount : Z) (invoiceProducts : list InvoiceLine.t) : Async Response :=
  let invoice := InvoiceDraft.mk (objectId env) (userId user) (InvoiceBody.business b)
                   invoiceProducts totalAmount (now env) None in
  await (InvoiceSave invoice (nowValidate env)) (failed "Invoice creation failed")
    (fun invoice => Done (json 201 (MessageInvoice "Invoice created" invoice))).

(** [POST /invoice] *)
Definition createInvoice (user : AuthUser) (b : InvoiceBody.t) (env : Env)
    : Async Response :=
  match InvoiceBody.products b with
  | None | Some [] => Done (json 400 (Message "Products list is required"))
  | Some products => invoiceLoop products 0 [] (commitInvoice user b env)
  end.

(** [GET /invoice] *)
Definition getInvoices : Async Response :=
  await InvoiceFind (failed "Fetching invoices failed") (fun invoices =>
    Done (json 200 (InvoiceDocs invoices))).

(** [GET /invoice/:id].  Reading [invoice.customer._id] of a customer
    reference that [populate] left [null] raises a TypeError, which the
    [catch] block reports. *)
Definition getInvoice (user : AuthUser) (id : string) : Async Response :=
  await (InvoiceFindById id) (failed "Fetching invoice failed") (fun invoice =>
    match invoice with
    | None => Done (json 404 (Message "Invoice not found"))
    | Some invoice =>
        if bool_decide (role user = customer)
        then
          match Populated.customer invoice with
          | None => Done (failed "Fetching invoice failed" (TypeErrorNull "_id"))
          | Some c =>
              if bool_decide (Populated.user_id c ≠ userId user)
              then Done (json 403 (Message "Unauthorized access"))
              else Done (json 200 (InvoiceDoc invoice))
          end
        else Done (json 200 (InvoiceDoc invoice))
    end).

(** *** routes/businessRouter.js *)

(** [POST /business].  The new document takes [owner] from [req.user._id],
    a field the token's payload does not have. *)
Definition createBusiness (b : BusinessBody.t) (env : Env) : Async Response :=
  let business := BusinessBody.mk (BusinessBody.name b) (BusinessBody.address b)
                    (BusinessBody.phone b) (BusinessBody.email b) None in
  await (BusinessSave (objectId env) (now env) business)
    (failed "Business registration failed")
    (fun business => Done (json 201 (MessageBusiness "Business registered"
                                       business.1 business.2))).

Definition getBusinesses : Async Response :=
  await BusinessFind (failed "Fetching businesses failed") (fun businesses =>
    Done (json 200 (BusinessDocs businesses))).

Definition getBusiness (id : string) : Async Response :=
  await (BusinessFindById id) (failed "Fetching business failed") (fun business =>
    match business with
    | None => Done (json 404 (Message "Business not found"))
    | Some business => Done (json 200 (BusinessDoc business))
    end).

Definition putBusiness (id : string) (b : BusinessBody.t) : Async Response :=
  await (BusinessFindByIdAndUpdate id b) (failed "Update failed") (fun updatedBusiness =>
    match updatedBusiness with
    | None => Done (json 404 (Message "Business not found"))
    | Some updatedBusiness =>
        Done (json 200 (MessageBusiness "Business updated" id updatedBusiness))
    end).

Definition deleteBusiness (id : string) : Async Response :=
  await (BusinessFindByIdAndDelete id) (failed "Delete failed") (fun deletedBusiness =>
    match deletedBusiness with
    | None => Done (json 404 (Message "Business not found"))
    | Some _ => Done (json 200 (Message "Business deleted"))
    end).

(** *** routes/userRouter.js

    [bcrypt] and [jsonwebtoken] are libraries: the hash, the outcome of the
    comparison and the signed token are given with the request. *)

Definition signup (b : SignupBody.t) (hashedPassword : string) (env : Env)
    : Async Response :=
  await (UserFindOne (SignupBody.email b)) (failed "Signup failed") (fun existingUser =>
    match existingUser with
    | Some _ => Done (json 400 (Message "User already exists"))
    | None =>
        let user := User.mk (SignupBody.name b) (SignupBody.email b) hashedPassword
                      (default customer (SignupBody.role b)) (SignupBody.businessId b) in
        await (UserSave (objectId env) user) (failed "Signup failed")
          (fun _ => Done (json 201 (Message "User created successfully")))
    end).

Definition login (email password : string) (isMatch : bool) (token : string)
    : Async Response :=
  if bool_decide (email = EmptyString) || bool_decide (password = EmptyString)
  then Done (json 400 (Message "Email and password are required"))
  else
    await (UserFindOne email) (failed "Login failed") (fun user =>
      match user with
      | None => Done (json 400 (Message "Invalid credentials"))
      | Some user =>
          if bool_decide (User.password user.2 = EmptyString)
          then Done (json 400 (Message "Invalid credentials"))
          else if negb isMatch
          then Done (json 400 (Message "Invalid credentials"))
          else Done (json 200 (TokenUser token (mkAuthUser user.1 (User.role user.2))))
      end).

(** [userModel.find({}, '-password')]: the documents without their
    password, which is left empty here. *)
Definition hidePassword (u : string * User.t) : string * User.t :=
  (u.1, User.mk (User.name u.2) (User.email u.2) EmptyString (User.role u.2) (User.businessId u.2)).

Definition getUsers : Async Response :=
  await UserFind (failed "Fetching users failed") (fun users =>
    Done (json 200 (UserDocs (hidePassword <$> users)))).

(** *** Middlewares *)

(** Modelled from the spec: middlewares/authMiddleware.js is not among the
    sources.  The Auth Gateway "supplies {userId, role} for the requesting
    principal": a request without a verified token stops here, the others
    reach the handler with [req.user] set. *)
Definition authMiddleware (token : option AuthUser) (next : AuthUser -> Async Response)
    : Async Response :=
  match token with
  | None => Done (json 401 (Message "Unauthorized"))
  | Some user => next user
  end.

(** Modelled from the spec: [authorizeRoles] is exported by the same missing
    file.  "Unauthorized (wrong role -- enforced by the excluded Auth
    Gateway)": a principal whose role is not listed stops here. *)
Definition authorizeRoles (roles : list Role) (user : AuthUser) (next : Async Response)
    : Async Response :=
  if bool_decide (role user ∈ roles) then next
  else Done (json 403 (Message "Forbidden")).

(** *** The routes mounted by index.js *)

Inductive Route : Type :=
  | GetTest
  | PostUsersSignup (b : SignupBody.t) (hashedPassword : string) (env : Env)
  | PostUsersLogin (email password : string) (isMatch : bool) (token : string)
  | GetUsers
  | GetProducts
  | GetProduct (id : string)
  | PostProduct (b : ProductBody.t) (env : Env)
  | PutProduct (id : string) (b : ProductBody.t)
  | DeleteProduct (id : string)
  | PatchProductQuantity (id : string) (decrementBy : JsValue)
  | PostBusiness (b : BusinessBody.t) (env : Env)
  | GetBusinesses
  | GetBusiness (id : string)
  | PutBusiness (id : string) (b : BusinessBody.t)
  | DeleteBusiness (id : string)
  | PostInvoice (b : InvoiceBody.t) (env : Env)
  | GetInvoices
  | GetInvoice (id : string).

Record Request : Type := mkRequest
  { token : option AuthUser;
    route : Route }.

Definition dispatch (req : Request) : Async Response :=
  match route req with
  | GetTest => Done (json 200 (Message "Test endpoint is working!"))
  | PostUsersSignup b h env => signup b h env
  | PostUsersLogin e p m t => login e p m t
  | GetUsers =>
      authMiddleware (token req) (fun user =>
        authorizeRoles [admin; manager] user getUsers)
  | GetProducts => getProducts
  | GetProduct id => getProduct id
  | PostProduct b env =>
      authMiddleware (token req) (fun user =>
        authorizeRoles [admin; manager] user (createProduct b env))
  | PutProduct id b =>
      authMiddleware (token req) (fun user =>
        authorizeRoles [admin; manager] user (putProduct id b))
  | DeleteProduct id =>
      authMiddleware (token req) (fun user =>
        authorizeRoles [admin; manager] user (deleteProduct id))
  | PatchProductQuantity id d =>
      authMiddleware (token req) (fun user =>
        authorizeRoles [customer] user (purchase id d))
  | PostBusiness b env =>
      authMiddleware (token req) (fun user =>
        authorizeRoles [admin] user (createBusiness b env))
  | GetBusinesses =>
      authMiddleware (token req) (fun user =>
        authorizeRoles [admin; manager] user getBusinesses)
  | GetBusiness id =>
      authMiddleware (token req) (fun user =>
        authorizeRoles [admin; manager] user (getBusiness id))
  | PutBusiness id b =>
      authMiddleware (token req) (fun user =>
        authorizeRoles [admin] user (putBusiness id b))
  | DeleteBusiness id =>
      authMiddleware (token req) (fun user =>
        authorizeRoles [admin] user (deleteBusiness id))
  | PostInvoice b env =>
      authMiddleware (token req) (fun user =>
        authorizeRoles [customer] user (createInvoice user b env))
  | GetInvoices =>
      authMiddleware (token req) (fun user =>
        authorizeRoles [admin; manager] user getInvoices)
  | GetInvoice id =>
      authMiddleware (token req) (fun user => getInvoice user id)
  end.

(** One request served from start to end. *)
Definition handle (w : World) (req : Request) : World * Response :=
  run w (dispatch req).

(** A sequence of requests served one after the other. *)
Definition handleAll (w : World) (reqs : list Request) : World :=
  foldl (fun w req => (handle w req).1) w reqs.

(** ** Concurrent requests

    Node.js runs one handler at a time and switches between handlers at
    their awaits.  A pool holds the handlers in flight; a step runs one
    handler's pending command against the store and the code that follows
    it, up to its next await. *)

Definition Pool : Type := list (Async Response).

Definition stepAt (i : nat) (st : World * Pool) : World * Pool :=
  match st.2 !! i with
  | Some (Await c k) => let '(w', o) := exec c st.1 in (w', <[i := k o]> st.2)
  | _ => st
  end.

(** The handlers take their steps in the order the schedule lists them. *)
Definition interleave (sched : list nat) (st : World * Pool) : World * Pool :=
  foldl (fun st i => stepAt i st) st sched.

(** The response of a finished handler. *)
Definition response (p : Async Response) : option Response :=
  match p with
  | Done r => Some r
  | Await _ _ => None
  end.

(** The quantity a purchase response grants: what was asked for, when the
    response is [200]. *)
Definition granted (decrementBy : Z) (r : option Response) : Z :=
  match r with
  | Some r => if status r =? 200 then decrementBy else 0
  | None => 0
  end.

(** The total quantity granted to a pool of purchases of [decrementBy]
    each. *)
Definition totalGranted (decrementBy : Z) (pool : Pool) : Z :=
  foldr (fun p total => granted decrementBy (response p) + total) 0 pool.

(** One handler running among others: before each of its commands the other
    requests in flight may have changed the store in any way.  The result
    comes with the stores the handler's commands met, in order. *)
Fixpoint runAmong {R : Type} (others : nat -> World -> World) (n : nat)
    (w : World) (p : Async R) : World * R * list World :=
  match p with
  | Done r => (w, r, [])
  | Await c k =>
      let w0 := others n w in
      let '(w1, o) := exec c w0 in
      let '(w2, r, met) := runAmong others (S n) w1 (k o) in
      (w2, r, w0 :: met)
  end.

(** ** Vocabulary of the specification *)

(** The quantity of product [id] that a list of line items asks for. *)
Fixpoint ordered (id : string) (items : list Item.t) : Z :=
  match items with
  | [] => 0
  | item :: rest =>
      (if bool_decide (Item.product item = id) then Item.quantity item else 0)
      + ordered id rest
  end.

(** [item] can be reserved from the stock of [w] once the items of [before]
    have been: its product exists and what is left covers its quantity. *)
Definition inStock (w : World) (before : list Item.t) (item : Item.t) : Prop :=
  ∃ p, products w !! Item.product item = Some p
       ∧ Item.quantity item ≤ Product.quantity p - ordered (Item.product item) before.


(** The sum of the line totals of an invoice's lines. *)
Definition sumOfLineTotals (lines : list InvoiceLine.t) : Z :=
  foldr (fun line total => InvoiceLine.totalPrice line + total) 0 lines.

(** The line the loop builds for [item] from the product document [p] it
    has just read. *)
Definition lineOf (item : Item.t) (p : Product.t) : InvoiceLine.t :=
  InvoiceLine.mk (Item.product item) (Item.quantity item) (Product.price p)
    (Product.price p * Item.quantity item).

(** Every product has a quantity on hand that is not negative. *)
Definition stockNonNegative (w : World) : Prop :=
  ∀ id p, products w !! id = Some p → 0 ≤ Product.quantity p.

(** The requests of the purchase workflow: a product purchase and an
    invoice creation. *)
Definition isReservation (req : Request) : Prop :=
  match route req with
  | PatchProductQuantity _ _ | PostInvoice _ _ => True
  | _ => False
  end.

(** The requests that write a product's quantity as the body gives it. *)
Definition writesProduct (req : Request) : Prop :=
  match route req with
  | PostProduct _ _ | PutProduct _ _ => True
  | _ => False
  end.

(** A command that cannot make a quantity negative: it does not write a
    product from a request body, and a saved quantity is not negative. *)
Definition keepsStock {X : Type} (c : Cmd X) : Prop :=
  match c with
  | ProductSaveNew _ _ _ | ProductFindByIdAndUpdate _ _ => False
  | ProductSaveQuantity _ q => 0 ≤ q
  | _ => True
  end.

(** What a command can answer when no product has a negative quantity. *)
Definition stockOutcome {X : Type} (c : Cmd X) : Outcome X → Prop :=
  match c in Cmd X return Outcome X → Prop with
  | ProductFindById _ => fun o =>
      match o with
      | Resolved (Some p) => 0 ≤ Product.quantity p
      | _ => True
      end
  | _ => fun _ => True
  end.

(** A handler all of whose commands keep the stock non-negative, whatever
    the store answers along the way. *)
Fixpoint StockSafe (p : Async Response) : Prop :=
  match p with
  | Done _ => True
  | Await c k => keepsStock c ∧ ∀ o, stockOutcome c o → StockSafe (k o)
  end.

(** The commands of a reservation: reading a product, saving its quantity
    and saving the invoice. *)
Definition reservationCmd {X : Type} (c : Cmd X) : Prop :=
  match c with
  | ProductFindById _ | ProductSaveQuantity _ _ | InvoiceSave _ _ => True
  | _ => False
  end.

(** A handler that issues commands of one kind only, whatever the store
    answers. *)
Fixpoint Issues (kind : ∀ X, Cmd X → Prop) (p : Async Response) : Prop :=
  match p with
  | Done _ => True
  | Await c k => kind _ c ∧ ∀ o, Issues kind (k o)
  end.

(** Every invoice's customer is a user of the store. *)
Definition customersExist (w : World) : Prop :=
  ∀ inv, inv ∈ invoices w → is_Some (users w !! Invoice.customer inv).

(** The principal of a request is a user of the store: [POST /users/login]
    signs a token for a stored user, and no route deletes a user. *)
Definition authentic (w : World) (req : Request) : Prop :=
  ∀ user, token req = Some user → is_Some (users w !! userId user).

(** The commands a request of [user] may issue: a new invoice names that
    user as its customer. *)
Definition savesFor (user : option AuthUser) (X : Type) (c : Cmd X) : Prop :=
  match c with
  | InvoiceSave d _ => Some (InvoiceDraft.customer d) = userId <$> user
  | _ => True
  end.

(** The requests that create a document. *)
Definition isCreation (req : Request) : Prop :=
  match route req with
  | PostUsersSignup _ _ _ | PostProduct _ _ | PostBusiness _ _ | PostInvoice _ _ => True
  | _ => False
  end.

(** The requests that can change or remove a name that [populate] shows in
    an invoice: updates that carry a [name], and deletions, of products and
    businesses. *)
Definition changesNames (req : Request) : Prop :=
  match route req with
  | PutProduct _ b => is_Some (ProductBody.name b)
  | PutBusiness _ b => is_Some (BusinessBody.name b)
  | DeleteProduct _ | DeleteBusiness _ => True
  | _ => False
  end.

(** Retrieving with [get] before and after the requests [between] gives the
    same response. *)
Definition retrievedTwiceAlike (w : World) (between : list Request) (get : Request) : Prop :=
  (handle (handleAll w between) get).2 = (handle w get).2.

(** The commands that keep every stored name, user and invoice. *)
Definition keepsNames (X : Type) (c : Cmd X) : Prop :=
  match c with
  | UserSave _ _ | BusinessSave _ _ _ | ProductSaveNew _ _ _ | InvoiceSave _ _
  | BusinessFindByIdAndDelete _ | ProductFindByIdAndDelete _ => False
  | BusinessFindByIdAndUpdate _ b => BusinessBody.name b = None
  | ProductFindByIdAndUpdate _ b => ProductBody.name b = None
  | _ => True
  end.

(** [w'] shows the same users, invoices and names as [w]. *)
Definition sameNames (w w' : World) : Prop :=
  users w' = users w
  ∧ invoices w' = invoices w
  ∧ (∀ id, Business.name <$> businesses w' !! id = Business.name <$> businesses w !! id)
  ∧ (∀ id, Product.name <$> products w' !! id = Product.name <$> products w !! id).

(** Two product documents that differ at most in the business that owns
    them, and two stores whose products do and whose invoices are the
    same. *)
Definition sameButOwner (p p' : Product.t) : Prop :=
  Product.name p' = Product.name p
  ∧ Product.description p' = Product.description p
  ∧ Product.price p' = Product.price p
  ∧ Product.quantity p' = Product.quantity p
  ∧ Product.createdAt p' = Product.createdAt p.

Definition sameStock (w w' : World) : Prop :=
  invoices w' = invoices w
  ∧ ∀ id, match products w !! id, products w' !! id with
          | Some p, Some p' => sameButOwner p p'
          | None, None => True
          | _, _ => False
          end.

(** ** Example data *)

Definition shop : World :=
  mkWorld ∅ ∅
    (<["A" := Product.mk "Apple" None 10 5 "biz" 0]>
       (<["B" := Product.mk "Bean" None 7 0 "biz" 0]> ∅)) [].

Definition alice : AuthUser := mkAuthUser "alice" customer.

Definition env1 : Env := mkEnv "inv1" 1000 1001.

Definition order (items : list Item.t) : InvoiceBody.t :=
  InvoiceBody.mk (Some items) (Some "biz") None None.


(** Two customers who each buy the whole stock of A, and the schedule in
    which both read the quantity before either writes it back. *)
Definition bob : AuthUser := mkAuthUser "bob" customer.

Definition twoBuyers : list Request :=
  [mkRequest (Some alice) (PatchProductQuantity "A" (JsNumber 5));
   mkRequest (Some bob) (PatchProductQuantity "A" (JsNumber 5))].

Definition twoOrders : list Request :=
  [mkRequest (Some alice) (PostInvoice (order [Item.mk "A" 5]) (mkEnv "inv1" 1000 1001));
   mkRequest (Some bob) (PostInvoice (order [Item.mk "A" 5]) (mkEnv "inv2" 1000 1002))].

Definition readsFirst : list nat := [0; 1; 0; 1; 0; 1]%nat.






Definition firstInvoice : Invoice.t :=
  Invoice.mk "inv1" "alice" "biz" [InvoiceLine.mk "A" 2 10 20] 20 1000 "INV-1001".


(** An order that names another customer and a business that does not
    exist. *)
Definition forgedOrder : InvoiceBody.t :=
  InvoiceBody.mk (Some [Item.mk "A" 2]) (Some "nowhere") (Some "mallory") (Some "X-1").

Definition forgedInvoice : Invoice.t :=
  Invoice.mk "inv1" "alice" "nowhere" [InvoiceLine.mk "A" 2 10 20] 20 1000 "INV-1001".

(** A store with users, a business, a product and alice's invoice. *)
Definition archive : World :=
  mkWorld
    (<["alice" := User.mk "Alice" "alice@example.org" "h1" customer None]>
       (<["bob" := User.mk "Bob" "bob@example.org" "h2" customer None]>
          (<["root" := User.mk "Root" "root@example.org" "h3" admin None]> ∅)))
    (<["biz" := Business.mk "Grocer" None None None 0 "root"]> ∅)
    (<["A" := Product.mk "Apple" None 10 3 "biz" 0]> ∅)
    [firstInvoice].

Definition root : AuthUser := mkAuthUser "root" admin.

(** The administrator renames product A, or changes its price only. *)
Definition renameA : Request :=
  mkRequest (Some root) (PutProduct "A" (ProductBody.mk (Some "Pear") None None None None)).

Definition repriceOnly : Request :=
  mkRequest (Some root) (PutProduct "A" (ProductBody.mk None None (Some 99) None None)).




(** An order for 2 of A that names no business. *)
Definition orderWithoutBusiness : InvoiceBody.t :=
  InvoiceBody.mk (Some [Item.mk "A" 2]) None None None.


(** [w'] has the users, the businesses and the products of [w], each
    product with the same fields except, possibly, its quantity. *)
Definition onlyQuantitiesDiffer (w w' : World) : Prop :=
  users w' = users w
  ∧ businesses w' = businesses w
  ∧ ∀ id, match products w !! id, products w' !! id with
          | Some p, Some p' =>
              Product.name p' = Product.name p
              ∧ Product.description p' = Product.description p
              ∧ Product.price p' = Product.price p
              ∧ Product.businessId p' = Product.businessId p
              ∧ Product.createdAt p' = Product.createdAt p
          | None, None => True
          | _, _ => False
          end.

(** Two new invoices that are validated at different times. *)
Definition draftOf (id : string) : InvoiceDraft.t :=
  InvoiceDraft.mk id "alice" (Some "biz") [] 0 1000 None.

(** Carol signs up without naming a role. *)
Definition carol : SignupBody.t :=
  SignupBody.mk "Carol" "carol@example.org" "secret" None None.

Definition carolEnv : Env := mkEnv "carol" 70 70.



(** ** Running handlers: equations *)

Lemma with_products_same (w : World) : with_products (products w) w = w.
Proof. by destruct w. Qed.

Lemma set_quantity_same (p : Product.t) q :
  q = Product.quantity p → Product.set_quantity q p = p.
Proof. intros ->. by destruct p. Qed.

Lemma run_await {R X : Type} (w : World) (c : Cmd X) (h : JsError → R) (k : X → Async R) :
  run w (await c h k)
  = match exec c w with
    | (w', Resolved x) => run w' (k x)
    | (w', Rejected e) => (w', h e)
    end.
Proof. simpl. by destruct (exec c w) as [w' [x|e]]. Qed.

(** A handler alone in the pool, stepped until it is done, does what [run]
    says. *)
Lemma interleave_alone (p : Async Response) :
  ∀ w, ∃ n, interleave (replicate n 0%nat) (w, [p]) = ((run w p).1, [Done (run w p).2]).
Proof.
  induction p as [r|X c k IH]; intros w; [by exists 0%nat|].
  cbn [run]. destruct (exec c w) as [w1 o] eqn:Hexec.
  destruct (IH o w1) as [n Hn]. exists (S n).
  cbn [replicate interleave foldl]. unfold stepAt. cbn. rewrite Hexec. exact Hn.
Qed.

(** One turn of the invoice loop, run without interruption. *)
Lemma run_invoiceLoop_cons (w : World) item rest t acc k :
  run w (invoiceLoop (item :: rest) t acc k)
  = match products w !! Item.product item with
    | None => (w, unavailable (Item.product item))
    | Some p =>
        if Product.quantity p <? Item.quantity item
        then (w, unavailable (Item.product item))
        else
          run (with_products
                 (<[Item.product item :=
                      Product.set_quantity (Product.quantity p - Item.quantity item) p]>
                    (products w)) w)
              (invoiceLoop rest (t + Product.price p * Item.quantity item)
                 (acc ++ [InvoiceLine.mk (Item.product item) (Item.quantity item)
                            (Product.price p) (Product.price p * Item.quantity item)]) k)
    end.
Proof.
  cbn [invoiceLoop]. rewrite run_await. cbn [exec].
  destruct (products w !! Item.product item) as [p|] eqn:Hp; [|done].
  destruct (Product.quantity p <? Item.quantity item); [done|].
  rewrite run_await. cbn [exec]. unfold saveProductQuantity. by rewrite Hp.
Qed.

(** The stock after one reservation, seen from the stock before it. *)
Lemma lookup_reserved (ps : gmap string Product.t) a p q id :
  ps !! a = Some p →
  <[a := Product.set_quantity (Product.quantity p - q) p]> ps !! id
  = (fun p' => Product.set_quantity
                 (Product.quantity p' - (if bool_decide (a = id) then q else 0)) p')
      <$> ps !! id.
Proof.
  intros Hp. case_bool_decide as Ha.
  - subst id. by rewrite lookup_insert_eq, Hp.
  - rewrite lookup_insert_ne by done.
    destruct (ps !! id) as [p'|]; [|done]. simpl. f_equal.
    symmetry. apply set_quantity_same. lia.
Qed.

Lemma inStock_reserved (w : World) a p l1 it :
  products w !! Item.product a = Some p →
  inStock w (a :: l1) it →
  inStock
    (with_products
       (<[Item.product a :=
            Product.set_quantity (Product.quantity p - Item.quantity a) p]> (products w)) w)
    l1 it.
Proof.
  intros Hp (p' & Hp' & Hle). unfold inStock. cbn [products with_products].
  rewrite (lookup_reserved _ _ _ _ _ Hp), Hp'. eexists; split; [done|].
  cbn [ordered] in Hle. destruct p'; simpl in *. lia.
Qed.


(** ** Aborted orders *)



(** An order for 2 of A alone succeeds: one line of 20, a total of 20, and
    3 of A left. *)
Lemma createInvoice_succeeds_example :
  let result := handle shop (mkRequest (Some alice)
                  (PostInvoice (order [Item.mk "A" 2]) env1)) in
  result.2 = json 201 (MessageInvoice "Invoice created" firstInvoice)
  ∧ invoices result.1 = [firstInvoice]
  ∧ quantityOnHand result.1 "A" = Some 3.
Proof. vm_compute. done. Qed.

(** ** The stock never goes negative *)

Lemma stockNonNegative_insert (w : World) id p :
  stockNonNegative w → 0 ≤ Product.quantity p →
  stockNonNegative (with_products (<[id := p]> (products w)) w).
Proof.
  intros Hw Hp id' p'. cbn [products with_products].
  destruct (decide (id = id')) as [->|Hne].
  - rewrite lookup_insert_eq. by intros [= <-].
  - rewrite lookup_insert_ne by done. apply Hw.
Qed.

Lemma stockNonNegative_delete (w : World) id :
  stockNonNegative w → stockNonNegative (with_products (delete id (products w)) w).
Proof.
  intros Hw id' p'. cbn [products with_products].
  intros [_ Hp]%lookup_delete_Some. by apply (Hw id').
Qed.

(** A command that keeps the stock does so on every store, and answers as
    expected. *)
Lemma exec_keepsStock {X : Type} (c : Cmd X) (w : World) :
  keepsStock c → stockNonNegative w →
  stockNonNegative (exec c w).1 ∧ stockOutcome c (exec c w).2.
Proof.
  intros Hc Hw. destruct c; cbn [keepsStock] in Hc; try done; cbn [exec stockOutcome].
  - unfold saveNewUser. repeat case_match; split; done.
  - unfold saveNewBusiness. repeat case_match; split; done.
  - case_match; split; done.
  - split; [done|]. cbn [snd]. destruct (products w !! id) as [p|] eqn:Hp; [|done].
    by apply (Hw id).
  - unfold saveProductQuantity. case_match; split; try done.
    cbn [fst]. by apply stockNonNegative_insert.
  - split; [|done]. cbn [fst]. by apply stockNonNegative_delete.
  - unfold saveInvoice. repeat case_match; split; done.
Qed.


Lemma StockSafe_await {X : Type} (c : Cmd X) h k :
  keepsStock c → (∀ x, stockOutcome c (Resolved x) → StockSafe (k x)) →
  StockSafe (await c h k).
Proof. intros Hc Hk. split; [done|]. intros [x|e] Ho; [by apply Hk|done]. Qed.

Lemma purchase_stockSafe id d : StockSafe (purchase id d).
Proof.
  destruct d as [| |?|d|?]; try done. unfold purchase.
  destruct (d <=? 0) eqn:Hd; [done|].
  apply StockSafe_await; [done|]. intros [p|] Hq; [|done]. cbn [stockOutcome] in Hq.
  destruct (Product.quantity p =? 0); [done|].
  destruct (Z.gtb_spec d (Product.quantity p)) as [|Hle]; [done|].
  apply StockSafe_await; [|done]. cbn [keepsStock]. lia.
Qed.

Lemma invoiceLoop_stockSafe (items : list Item.t) :
  ∀ t acc k, (∀ t' acc', StockSafe (k t' acc')) → StockSafe (invoiceLoop items t acc k).
Proof.
  induction items as [|item rest IH]; intros t acc k Hk; [apply Hk|].
  cbn [invoiceLoop]. apply StockSafe_await; [done|].
  intros [p|] Hq; [|done]. cbn [stockOutcome] in Hq.
  destruct (Z.ltb_spec (Product.quantity p) (Item.quantity item)) as [|Hge]; [done|].
  apply StockSafe_await; [cbn [keepsStock]; lia|]. intros _ _. by apply IH.
Qed.

Lemma createInvoice_stockSafe user b env : StockSafe (createInvoice user b env).
Proof.
  unfold createInvoice. destruct (InvoiceBody.products b) as [[|item rest]|]; [done| |done].
  apply invoiceLoop_stockSafe. intros t' acc'. by apply StockSafe_await.
Qed.

Lemma guarded_stockSafe tok roles (h : AuthUser → Async Response) :
  (∀ user, StockSafe (h user)) →
  StockSafe (authMiddleware tok (fun user => authorizeRoles roles user (h user))).
Proof.
  intros Hh. destruct tok as [user|]; [|done]. cbn [authMiddleware].
  unfold authorizeRoles. case_bool_decide; [apply Hh|done].
Qed.

(** Any request other than a product creation or update is served by a
    handler that keeps the stock non-negative. *)
Lemma dispatch_stockSafe (req : Request) :
  ¬ writesProduct req → StockSafe (dispatch req).
Proof.
  intros Hreq. unfold dispatch. unfold writesProduct in Hreq.
  destruct (route req) eqn:Hroute; try (exfalso; by apply Hreq);
    try (apply guarded_stockSafe; intros user);
    try apply purchase_stockSafe; try apply createInvoice_stockSafe; try done.
  - apply StockSafe_await; [done|]. intros [u|] _; [done|]. by apply StockSafe_await.
  - unfold login. case_match; [done|]. apply StockSafe_await; [done|].
    intros [u|] _; [|done]. by repeat case_match.
  - by apply StockSafe_await.
  - by apply StockSafe_await.
  - apply StockSafe_await; [done|]. by intros [p|] _.
  - apply StockSafe_await; [done|]. by intros [p|] _.
  - by apply StockSafe_await.
  - by apply StockSafe_await.
  - apply StockSafe_await; [done|]. by intros [p|] _.
  - apply StockSafe_await; [done|]. by intros [p|] _.
  - apply StockSafe_await; [done|]. by intros [p|] _.
  - by apply StockSafe_await.
  - destruct (token req) as [user|]; [|done]. cbn [authMiddleware].
    apply StockSafe_await; [done|]. intros [i|] _; [|done]. by repeat case_match.
Qed.


Lemma isReservation_not_writesProduct (req : Request) :
  isReservation req → ¬ writesProduct req.
Proof. unfold isReservation, writesProduct. destruct (route req); tauto. Qed.

Lemma handleAll_snoc (w : World) reqs req :
  handleAll w (reqs ++ [req]) = (handle (handleAll w reqs) req).1.
Proof. unfold handleAll. by rewrite foldl_app. Qed.



Lemma shop_stockNonNegative : stockNonNegative shop.
Proof.
  intros id p. unfold shop. cbn [products].
  intros [[_ <-]|[_ [[_ <-]|[_ H]]%lookup_insert_Some]]%lookup_insert_Some; simpl; done.
Qed.


(** The same under concurrency: however the steps of the handlers in flight
    interleave, no quantity becomes negative. *)
Lemma stepAt_stockSafe (i : nat) (w : World) (pool : Pool) :
  stockNonNegative w → Forall StockSafe pool →
  stockNonNegative (stepAt i (w, pool)).1 ∧ Forall StockSafe (stepAt i (w, pool)).2.
Proof.
  intros Hw Hpool. unfold stepAt. cbn [fst snd].
  destruct (pool !! i) as [[r|X c k]|] eqn:Hi; [done| |done].
  destruct (Forall_lookup_1 _ _ _ _ Hpool Hi) as [Hc Hk].
  destruct (exec_keepsStock c w Hc Hw) as [Hw' Ho].
  destruct (exec c w) as [w' o]. split; [done|]. cbn [snd].
  apply Forall_insert; [done|]. by apply Hk.
Qed.

Lemma interleave_keeps_stockNonNegative (sched : list nat) :
  ∀ (w : World) (pool : Pool),
    stockNonNegative w → Forall StockSafe pool →
    stockNonNegative (interleave sched (w, pool)).1.
Proof.
  induction sched as [|i sched IH]; intros w pool Hw Hpool; [done|].
  cbn [interleave foldl].
  destruct (stepAt_stockSafe i w pool Hw Hpool) as [Hw' Hpool'].
  destruct (stepAt i (w, pool)) as [w' pool']. by apply IH.
Qed.

(** X23. However the steps of any number of purchases and orders in flight
    interleave, no product's quantity becomes negative when none was. *)
Lemma reservations_interleaved_keep_stockNonNegative
    (sched : list nat) (w : World) (reqs : list Request) :
  stockNonNegative w → Forall isReservation reqs →
  stockNonNegative (interleave sched (w, dispatch <$> reqs)).1.
Proof.
  intros Hw Hreqs. apply interleave_keeps_stockNonNegative; [done|].
  apply Forall_fmap. eapply Forall_impl; [exact Hreqs|].
  intros req Hreq. by apply dispatch_stockSafe, isReservation_not_writesProduct.
Qed.

(** ** Reservations under concurrency *)


(** C1 (not met by the code). The handlers read the quantity with one
    command and write it back with another, so two purchases of 5 of a
    product that has 5 on hand both succeed when both reads come before
    the writes: the customers are granted 10 in total, twice the quantity
    on hand, and the store is left with a quantity of 0. *)
Theorem concurrent_purchases_oversell :
  let final := interleave readsFirst (shop, dispatch <$> twoBuyers) in
  quantityOnHand shop "A" = Some 5
  ∧ response <$> final.2
    = [Some (json 200 (MessageRemaining "Product purchased" 0));
       Some (json 200 (MessageRemaining "Product purchased" 0))]
  ∧ totalGranted 5 final.2 = 10
  ∧ quantityOnHand final.1 "A" = Some 0.
Proof. vm_compute. done. Qed.

(** The same race on the invoice path: two orders for the whole stock of A
    are both invoiced. *)
Lemma concurrent_orders_oversell :
  let final := interleave readsFirst (shop, dispatch <$> twoOrders) in
  status <$> (final.2 ≫= fun p => option_list (response p)) = [201; 201]
  ∧ (Invoice.products <$> invoices final.1)
    = [[InvoiceLine.mk "A" 5 10 50]; [InvoiceLine.mk "A" 5 10 50]]
  ∧ quantityOnHand final.1 "A" = Some 0.
Proof. vm_compute. done. Qed.

(** ** Quantities that are not positive *)


Lemma purchase_rejects_non_number (id : string) (v : JsValue) :
  (∀ d, v ≠ JsNumber d) →
  purchase id v = Done (json 400 (Message "decrementBy must be a positive number")).
Proof. intros Hv. destruct v; try done. by destruct (Hv z). Qed.

(** C4 (not met by the code). [POST /invoice] never looks at the sign of a
    line item's quantity.  An order for -5 of A, which has 5 on hand at a
    price of 10, is answered 201: the stored invoice has a line of quantity
    -5 and a total of -50, and A's quantity rises to 10.  An order for 0 of
    A is invoiced as well. *)
Theorem createInvoice_accepts_non_positive_quantity :
  let negative := handle shop (mkRequest (Some alice)
                    (PostInvoice (order [Item.mk "A" (-5)]) env1)) in
  let zero := handle shop (mkRequest (Some alice)
                (PostInvoice (order [Item.mk "A" 0]) env1)) in
  negative.2 = json 201 (MessageInvoice "Invoice created"
                 (Invoice.mk "inv1" "alice" "biz" [InvoiceLine.mk "A" (-5) 10 (-50)]
                    (-50) 1000 "INV-1001"))
  ∧ quantityOnHand negative.1 "A" = Some 10
  ∧ length (invoices negative.1) = 1%nat
  ∧ zero.2 = json 201 (MessageInvoice "Invoice created"
               (Invoice.mk "inv1" "alice" "biz" [InvoiceLine.mk "A" 0 10 0]
                  0 1000 "INV-1001")).
Proof. vm_compute. done. Qed.

(** ** Failure kinds *)





(** ** Totals and prices of a created invoice *)


Lemma sumOfLineTotals_app (l1 l2 : list InvoiceLine.t) :
  sumOfLineTotals (l1 ++ l2) = sumOfLineTotals l1 + sumOfLineTotals l2.
Proof. unfold sumOfLineTotals. induction l1 as [|l l1 IH]; cbn [app foldr]; lia. Qed.




(** A handler that runs alone meets the store as it left it. *)
Lemma runAmong_alone {R : Type} (p : Async R) :
  ∀ n w, (runAmong (fun _ w => w) n w p).1 = run w p.
Proof.
  induction p as [r|X c k IH]; intros n w; [done|]. cbn [runAmong run].
  destruct (exec c w) as [w1 o]. rewrite <- (IH o (S n) w1).
  by destruct (runAmong _ _ _ _) as [[??]?].
Qed.

(** ** What [POST /invoice] does to the store *)

(** The loop writes products only; it ends in a 400 response that names one
    of the items, or it reaches the code after the loop with one line per
    item. *)
Lemma invoiceLoop_run (items : list Item.t) :
  ∀ (w : World) t acc k,
    ∃ ps,
      (∃ item, item ∈ items
               ∧ run w (invoiceLoop items t acc k)
                 = (with_products ps w, unavailable (Item.product item)))
      ∨ (∃ lines, length lines = length items
                  ∧ run w (invoiceLoop items t acc k)
                    = run (with_products ps w)
                        (k (t + sumOfLineTotals lines) (acc ++ lines))).
Proof.
  induction items as [|item rest IH]; intros w t acc k.
  - exists (products w). right. exists []. split; [done|].
    by rewrite with_products_same, Z.add_0_r, app_nil_r.
  - rewrite run_invoiceLoop_cons.
    destruct (products w !! Item.product item) as [p|] eqn:Hp.
    2:{ exists (products w). left. exists item. split; [set_solver|].
        by rewrite with_products_same. }
    destruct (Product.quantity p <? Item.quantity item).
    { exists (products w). left. exists item. split; [set_solver|].
      by rewrite with_products_same. }
    match goal with
    | |- context [run ?w1 (invoiceLoop rest ?t1 ?acc1 k)] =>
        destruct (IH w1 t1 acc1 k) as [ps [(it & Hit & Hrun)|(lines & Hlen & Hrun)]]
    end.
    + exists ps. left. exists it. split; [set_solver|]. rewrite Hrun. by destruct w.
    + exists ps. right. exists (lineOf item p :: lines). split; [cbn; by rewrite Hlen|].
      rewrite Hrun. unfold with_products. cbn [users businesses invoices].
      f_equal. f_equal; [|by rewrite <- app_assoc].
      cbn. unfold sumOfLineTotals. lia.
Qed.

(** The invoice that the code after the loop builds and the hook
    completes. *)
Lemma run_commitInvoice (w : World) user b env t lines :
  run w (commitInvoice user b env t lines)
  = match InvoiceBody.business b with
    | None => (w, failed "Invoice creation failed" (ValidationError "Invoice" ["business"]))
    | Some biz =>
        let number := "INV-" +:+ pretty (nowValidate env) in
        let inv := Invoice.mk (objectId env) (userId user) biz lines t (now env) number in
        if existsb (fun j => bool_decide (Invoice._id j = objectId env)) (invoices w)
        then (w, failed "Invoice creation failed"
                   (DuplicateKey "invoices" "_id" (objectId env)))
        else if existsb (fun j => bool_decide (Invoice.invoiceNumber j = number)) (invoices w)
        then (w, failed "Invoice creation failed"
                   (DuplicateKey "invoices" "invoiceNumber" number))
        else (with_invoices (invoices w ++ [inv]) w,
              json 201 (MessageInvoice "Invoice created" inv))
    end.
Proof.
  unfold commitInvoice. rewrite run_await. cbn [exec]. unfold saveInvoice, preValidate.
  cbn [InvoiceDraft.business InvoiceDraft._id InvoiceDraft.customer InvoiceDraft.products
       InvoiceDraft.totalAmount InvoiceDraft.purchaseDate InvoiceDraft.invoiceNumber
       Invoice._id].
  destruct (InvoiceBody.business b) as [biz|]; [|done].
  cbv zeta. destruct (existsb _ _); [done|]. by destruct (existsb _ _).
Qed.

(** When every item can be reserved after the items before it, the loop
    reaches the code after it: each product's quantity is reduced by what
    the order asks of it, and each line carries the product's price. *)
Lemma invoiceLoop_completes (items : list Item.t) :
  ∀ (w : World) t acc k,
    (∀ l1 it l2, items = l1 ++ it :: l2 → inStock w l1 it) →
    ∃ ps lines,
      run w (invoiceLoop items t acc k)
      = run (with_products ps w) (k (t + sumOfLineTotals lines) (acc ++ lines))
      ∧ (∀ id, ps !! id
               = (fun p => Product.set_quantity (Product.quantity p - ordered id items) p)
                   <$> products w !! id)
      ∧ length lines = length items
      ∧ ∀ (i : nat) item, items !! i = Some item →
          ∃ p, products w !! Item.product item = Some p
               ∧ lines !! i = Some (lineOf item p).
Proof.
  induction items as [|a items IH]; intros w t acc k Hitems.
  - exists (products w), []. rewrite with_products_same, Z.add_0_r, app_nil_r.
    split; [done|]. split; [|done].
    intros id. destruct (products w !! id) as [p|]; [|done]. simpl. f_equal.
    symmetry. apply set_quantity_same. lia.
  - destruct (Hitems [] a items eq_refl) as (p & Hp & Hle). cbn [ordered] in Hle.
    set (w1 := with_products
                 (<[Item.product a :=
                      Product.set_quantity (Product.quantity p - Item.quantity a) p]>
                    (products w)) w).
    destruct (IH w1 (t + Product.price p * Item.quantity a) (acc ++ [lineOf a p]) k)
      as (ps & lines & Hrun & Hps & Hlen & Hlines).
    { intros l1 it l2 ->. apply inStock_reserved; [done|].
      by apply (Hitems (a :: l1) it l2). }
    exists ps, (lineOf a p :: lines). split; [|split; [|split]].
    + rewrite run_invoiceLoop_cons, Hp.
      destruct (Z.ltb_spec (Product.quantity p) (Item.quantity a)) as [|_]; [lia|].
      fold w1. fold (lineOf a p). rewrite Hrun. subst w1. unfold with_products.
      cbn [users businesses invoices]. f_equal. f_equal; [|by rewrite <- app_assoc].
      cbn. unfold sumOfLineTotals. lia.
    + intros id. rewrite Hps. subst w1. cbn [products with_products].
      rewrite (lookup_reserved _ _ _ _ _ Hp).
      destruct (products w !! id) as [p0|]; [|done]. simpl. f_equal.
      cbn [ordered]. destruct p0; unfold Product.set_quantity; simpl. f_equal. lia.
    + cbn [length]. by rewrite Hlen.
    + intros [|i] it Hit; cbn in Hit.
      * simplify_eq. by exists p.
      * destruct (Hlines i it Hit) as (p' & Hp' & Hline).
        subst w1. cbn [products with_products] in Hp'.
        rewrite (lookup_reserved _ _ _ _ _ Hp) in Hp'.
        destruct (products w !! Item.product it) as [p0|]; [|done].
        exists p0. split; [done|].
        change ((lineOf a p :: lines) !! S i) with (lines !! i). rewrite Hline.
        cbn in Hp'. simplify_eq. by destruct p0.
Qed.

Lemma existsb_elem_of {A : Type} (f : A → bool) (l : list A) :
  existsb f l = true ↔ ∃ x, x ∈ l ∧ f x = true.
Proof.
  rewrite existsb_exists. split; intros (x & Hx & Hf); exists x; split; try done.
  - by apply list_elem_of_In.
  - by apply list_elem_of_In.
Qed.

Lemma handle_PostInvoice (w : World) (tok : option AuthUser) b env :
  handle w (mkRequest tok (PostInvoice b env))
  = match tok with
    | None => (w, json 401 (Message "Unauthorized"))
    | Some user =>
        if bool_decide (role user = customer)
        then run w (createInvoice user b env)
        else (w, json 403 (Message "Forbidden"))
    end.
Proof.
  unfold handle, dispatch. cbn [route token]. destruct tok as [user|]; [|done].
  cbn [authMiddleware]. unfold authorizeRoles.
  rewrite (bool_decide_ext _ _ (list_elem_of_singleton (role user) customer)).
  by case_bool_decide.
Qed.

(** [POST /invoice] either answers 400 having written products only, or
    reaches the code after the loop with one line per item. *)
Lemma createInvoice_outcome (w : World) user b env :
  ∃ ps,
    (status (run w (createInvoice user b env)).2 = 400
     ∧ (run w (createInvoice user b env)).1 = with_products ps w)
    ∨ (∃ lines,
         run w (createInvoice user b env)
         = run (with_products ps w)
             (commitInvoice user b env (sumOfLineTotals lines) lines)).
Proof.
  unfold createInvoice.
  destruct (InvoiceBody.products b) as [[|item rest]|].
  1,3: exists (products w); left; by rewrite with_products_same.
  destruct (invoiceLoop_run (item :: rest) w 0 [] (commitInvoice user b env))
    as [ps [(it & _ & Hrun)|(lines & _ & Hrun)]]; exists ps.
  - left. by rewrite Hrun.
  - right. exists lines. by rewrite Hrun.
Qed.

(** ** Invoice numbers *)



(** ** Invariants of handlers, command by command *)

Lemma Issues_await {X : Type} kind (c : Cmd X) h k :
  kind X c → (∀ x, Issues kind (k x)) → Issues kind (await c h k).
Proof. intros Hc Hk. split; [done|]. by intros [x|e]. Qed.

Lemma run_Issues (P : World → Prop) (kind : ∀ X, Cmd X → Prop) :
  (∀ X (c : Cmd X) w, kind X c → P w → P (exec c w).1) →
  ∀ (p : Async Response) w, Issues kind p → P w → P (run w p).1.
Proof.
  intros Hexec. induction p as [r|X c k IH]; intros w Hp Hw; [done|].
  destruct Hp as [Hc Hk]. cbn [run]. specialize (Hexec X c w Hc Hw).
  destruct (exec c w) as [w1 o]. by apply IH.
Qed.

Lemma Issues_guarded kind tok roles (h : AuthUser → Async Response) :
  (∀ user, tok = Some user → Issues kind (h user)) →
  Issues kind (authMiddleware tok (fun user => authorizeRoles roles user (h user))).
Proof.
  intros Hh. destruct tok as [user|]; [|done]. cbn [authMiddleware].
  unfold authorizeRoles. case_bool_decide; [by apply Hh|done].
Qed.

(** The invoice loop issues reads of products and saves of quantities, then
    what the code after the loop issues. *)
Lemma invoiceLoop_issues (kind : ∀ X, Cmd X → Prop) (items : list Item.t) :
  (∀ id, kind _ (ProductFindById id)) →
  (∀ id q, kind _ (ProductSaveQuantity id q)) →
  ∀ t acc k, (∀ t' acc', Issues kind (k t' acc')) → Issues kind (invoiceLoop items t acc k).
Proof.
  intros Hfind Hsave. induction items as [|it items IH]; intros t acc k Hk; [apply Hk|].
  cbn [invoiceLoop]. apply Issues_await; [done|]. intros [p|]; [|done].
  destruct (Product.quantity p <? Item.quantity it); [done|].
  apply Issues_await; [done|]. intros _. by apply IH.
Qed.

Lemma createInvoice_issues_kind (kind : ∀ X, Cmd X → Prop) user b env :
  (∀ id, kind _ (ProductFindById id)) →
  (∀ id q, kind _ (ProductSaveQuantity id q)) →
  (∀ d now, InvoiceDraft.customer d = userId user → kind _ (InvoiceSave d now)) →
  Issues kind (createInvoice user b env).
Proof.
  intros Hfind Hsave Hinv. unfold createInvoice.
  destruct (InvoiceBody.products b) as [[|item rest]|]; [done| |done].
  apply invoiceLoop_issues; [done..|]. intros t acc. apply Issues_await; [|done].
  by apply Hinv.
Qed.

(** ** Whose invoice it is *)

Lemma createInvoice_issues user b env :
  Issues (@reservationCmd) (createInvoice user b env).
Proof. by apply createInvoice_issues_kind. Qed.

(** The commands of a reservation neither read nor write the businesses. *)
Lemma exec_reservationCmd_businesses {X : Type} (c : Cmd X) bs (w : World) :
  reservationCmd c →
  exec c (with_businesses bs w) = (with_businesses bs (exec c w).1, (exec c w).2).
Proof.
  intros Hc. destruct c; try done; cbn [exec].
  - unfold saveProductQuantity. cbn [products with_businesses]. by case_match.
  - unfold saveInvoice. cbn [invoices with_businesses]. by repeat case_match.
Qed.

Lemma run_reservation_businesses (p : Async Response) :
  ∀ bs w, Issues (@reservationCmd) p →
          run (with_businesses bs w) p = (with_businesses bs (run w p).1, (run w p).2).
Proof.
  induction p as [r|X c k IH]; intros bs w Hp; [done|].
  destruct Hp as [Hc Hk]. cbn [run]. rewrite exec_reservationCmd_businesses by done.
  destruct (exec c w) as [w1 o]. cbn [fst snd]. by apply IH.
Qed.

(** The loop and the code after it never look at the business that owns a
    product. *)
Lemma invoiceLoop_ignores_owner user b env (items : list Item.t) :
  ∀ (w w' : World) t acc,
    sameStock w w' →
    (run w' (invoiceLoop items t acc (commitInvoice user b env))).2
    = (run w (invoiceLoop items t acc (commitInvoice user b env))).2.
Proof.
  induction items as [|item rest IH]; intros w w' t acc [Hinv Hstock].
  - cbn [invoiceLoop]. rewrite !run_commitInvoice, Hinv.
    destruct (InvoiceBody.business b); [|done]. cbv zeta.
    destruct (existsb _ _); [done|]. by destruct (existsb _ _).
  - rewrite !run_invoiceLoop_cons. pose proof (Hstock (Item.product item)) as Hitem.
    destruct (products w !! Item.product item) as [p|],
             (products w' !! Item.product item) as [p'|]; try done.
    destruct Hitem as (Hname & Hdesc & Hprice & Hqty & Hcreated).
    rewrite Hprice, Hqty.
    destruct (Product.quantity p <? Item.quantity item); [done|].
    apply IH. split; [done|]. intros id. cbn [products with_products].
    destruct (decide (Item.product item = id)) as [<-|Hne].
    + rewrite !lookup_insert_eq. by repeat split.
    + rewrite !lookup_insert_ne by done. apply Hstock.
Qed.

(** C10. The invoice that [POST /invoice] creates has the [userId] of the
    verified token as its customer and the body's [business] as its
    business.  The body's own [customer] (and [invoiceNumber]) is never
    read: replacing it changes nothing.  The handler issues no command but
    reads of products, saves of their quantity and the save of the invoice,
    and these do not look at the businesses: the response is the same
    whatever businesses exist, and whatever business owns each product. *)
Theorem createInvoice_customer_from_token
    (w : World) (user : AuthUser) (b : InvoiceBody.t) (env : Env) :
  let result := handle w (mkRequest (Some user) (PostInvoice b env)) in
  (∀ m inv, result.2 = json 201 (MessageInvoice m inv) →
            Invoice.customer inv = userId user
            ∧ InvoiceBody.business b = Some (Invoice.business inv)
            ∧ invoices result.1 = invoices w ++ [inv])
  ∧ (∀ c n, handle w (mkRequest (Some user)
                        (PostInvoice (InvoiceBody.mk (InvoiceBody.products b)
                                        (InvoiceBody.business b) c n) env))
            = result)
  ∧ Issues (@reservationCmd) (createInvoice user b env)
  ∧ (∀ bs, (handle (with_businesses bs w) (mkRequest (Some user) (PostInvoice b env))).2
           = result.2)
  ∧ (∀ w', sameStock w w' →
           (handle w' (mkRequest (Some user) (PostInvoice b env))).2 = result.2).
Proof.
  intros result. subst result. split; [|split; [|split; [|split]]].
  - intros m inv. rewrite handle_PostInvoice. case_bool_decide; [|done].
    destruct (createInvoice_outcome w user b env) as [ps [[H400 Hw]|[lines Hrun]]].
    { intros Hr. rewrite Hr in H400. done. }
    rewrite Hrun, run_commitInvoice. cbn [invoices with_products].
    destruct (InvoiceBody.business b) as [biz|]; [|done]. cbv zeta.
    destruct (existsb _ _); [done|]. destruct (existsb _ _); [done|].
    by intros [= <- <-].
  - intros c n. by destruct b.
  - apply createInvoice_issues.
  - intros bs. rewrite !handle_PostInvoice. case_bool_decide; [|done].
    by rewrite run_reservation_businesses by apply createInvoice_issues.
  - intros w' Hsame. rewrite !handle_PostInvoice. case_bool_decide; [|done].
    unfold createInvoice. destruct (InvoiceBody.products b) as [[|item rest]|]; [done| |done].
    by apply invoiceLoop_ignores_owner.
Qed.

(** Alice's order names mallory as its customer and a business that does
    not exist; the invoice is alice's, for that business. *)
Lemma createInvoice_customer_from_token_witness :
  (handle shop (mkRequest (Some alice) (PostInvoice forgedOrder env1))).2
  = json 201 (MessageInvoice "Invoice created" forgedInvoice)
  ∧ businesses shop !! "nowhere" = None
  ∧ Invoice.customer forgedInvoice = userId alice
  ∧ InvoiceBody.business forgedOrder = Some (Invoice.business forgedInvoice).
Proof.
  assert ((handle shop (mkRequest (Some alice) (PostInvoice forgedOrder env1))).2
          = json 201 (MessageInvoice "Invoice created" forgedInvoice)) as Hr
    by reflexivity.
  destruct (createInvoice_customer_from_token shop alice forgedOrder env1) as (Hinv & _).
  destruct (Hinv _ _ Hr) as (Hcustomer & Hbusiness & _).
  by repeat split.
Defined.

(** ** Invoices are created for stored users *)

Ltac issues :=
  repeat first
    [ exact I
    | apply Issues_guarded; intros ? ?
    | apply Issues_await; [try done|intros ?]
    | match goal with
      | |- Issues _ (match ?x with _ => _ end) => destruct x
      | |- Issues _ (authMiddleware ?t _) => destruct t; cbn [authMiddleware]
      end ].

Ltac unfold_handlers :=
  unfold dispatch, signup, login, getUsers, getProducts, getProduct, createProduct,
    putProduct, deleteProduct, purchase, createBusiness, getBusinesses, getBusiness,
    putBusiness, deleteBusiness, getInvoices, getInvoice.

(** Every request saves invoices for its own principal only. *)
Lemma dispatch_savesFor (req : Request) : Issues (savesFor (token req)) (dispatch req).
Proof.
  unfold_handlers. destruct (route req) eqn:Hroute.
  16:{ apply Issues_guarded. intros user Htok. rewrite Htok.
       apply createInvoice_issues_kind; try done.
       intros d now0 Hd. cbn. by rewrite Hd. }
  all: issues.
Qed.

Lemma exec_keeps_customersExist (w0 : World) (tok : option AuthUser)
    {X : Type} (c : Cmd X) (w : World) :
  (∀ user, tok = Some user → is_Some (users w0 !! userId user)) →
  savesFor tok X c →
  customersExist w ∧ (∀ id, is_Some (users w0 !! id) → is_Some (users w !! id)) →
  customersExist (exec c w).1
  ∧ (∀ id, is_Some (users w0 !! id) → is_Some (users (exec c w).1 !! id)).
Proof.
  intros Htok Hc [Hw Hgrow].
  destruct c; cbn [exec fst]; try (split; [exact Hw|exact Hgrow]).
  - unfold saveNewUser. repeat case_match; try (split; [exact Hw|exact Hgrow]).
    cbn [fst]. split.
    + intros inv Hinv. cbn [users with_users]. apply lookup_insert_is_Some'.
      right. by apply Hw.
    + intros id' Hid. cbn [users with_users]. apply lookup_insert_is_Some'.
      right. by apply Hgrow.
  - unfold saveNewBusiness. repeat case_match; split; try exact Hw; exact Hgrow.
  - case_match; split; try exact Hw; exact Hgrow.
  - unfold saveNewProduct. repeat case_match; split; try exact Hw; exact Hgrow.
  - unfold saveProductQuantity. case_match; split; try exact Hw; exact Hgrow.
  - case_match; split; try exact Hw; exact Hgrow.
  - unfold saveInvoice. repeat case_match; try (split; [exact Hw|exact Hgrow]).
    cbn [fst]. split; [|exact Hgrow].
    intros inv. cbn [invoices with_invoices users].
    intros [Hinv| ->%list_elem_of_singleton]%elem_of_app; [by apply Hw|].
    cbn [Invoice.customer]. cbn [savesFor] in Hc.
    destruct tok as [user|]; [|done]. cbn in Hc. injection Hc as ->.
    by apply Hgrow, Htok.
Qed.

(** X24. Invoices are created for stored users only: when the principal of
    a request is a stored user and every invoice's customer is one, the
    same holds after the request, whatever it is, and no user has
    disappeared. *)
Lemma handle_keeps_customersExist (w : World) (req : Request) :
  authentic w req → customersExist w →
  customersExist (handle w req).1
  ∧ (∀ id, is_Some (users w !! id) → is_Some (users (handle w req).1 !! id)).
Proof.
  intros Hreq Hw.
  apply (run_Issues
           (fun w' => customersExist w'
                      ∧ ∀ id, is_Some (users w !! id) → is_Some (users w' !! id))
           (savesFor (token req))); [|apply dispatch_savesFor|done].
  intros X c w'. by apply exec_keeps_customersExist.
Qed.

(** ** Who may read an invoice *)



(** ** Stored invoices never change *)

Lemma exec_invoices_grow {X : Type} (c : Cmd X) (w : World) :
  ∃ new, invoices (exec c w).1 = invoices w ++ new
         ∧ ∀ i, i ∈ new → ∀ j, j ∈ invoices w → Invoice._id j ≠ Invoice._id i.
Proof.
  destruct c; cbn [exec fst];
    try (exists []; split; [by rewrite app_nil_r|by intros ? ?%elem_of_nil]).
  - unfold saveNewUser. repeat case_match;
      exists []; (split; [by rewrite app_nil_r|by intros ? ?%elem_of_nil]).
  - unfold saveNewBusiness. repeat case_match;
      exists []; (split; [by rewrite app_nil_r|by intros ? ?%elem_of_nil]).
  - case_match; exists []; (split; [by rewrite app_nil_r|by intros ? ?%elem_of_nil]).
  - unfold saveNewProduct. repeat case_match;
      exists []; (split; [by rewrite app_nil_r|by intros ? ?%elem_of_nil]).
  - unfold saveProductQuantity. case_match;
      exists []; (split; [by rewrite app_nil_r|by intros ? ?%elem_of_nil]).
  - case_match; exists []; (split; [by rewrite app_nil_r|by intros ? ?%elem_of_nil]).
  - unfold saveInvoice. destruct (InvoiceDraft.business d) as [biz|];
      [|exists []; split; [by rewrite app_nil_r|by intros ? ?%elem_of_nil]].
    cbv zeta. cbn [Invoice._id].
    destruct (existsb (fun j => bool_decide (Invoice._id j = InvoiceDraft._id d))
                (invoices w)) eqn:Hid;
      [exists []; split; [by rewrite app_nil_r|by intros ? ?%elem_of_nil]|].
    destruct (existsb (fun j => bool_decide (Invoice.invoiceNumber j = preValidate d now0))
                (invoices w)) eqn:Hnum;
      [exists []; split; [by rewrite app_nil_r|by intros ? ?%elem_of_nil]|].
    eexists [_]. split; [reflexivity|].
    intros i ->%list_elem_of_singleton j Hj Heq.
    assert (existsb (fun j => bool_decide (Invoice._id j = InvoiceDraft._id d)) (invoices w)
            = true) as Htrue; [|congruence].
    apply existsb_elem_of. exists j. split; [done|]. by apply bool_decide_eq_true.
Qed.

Lemma findInvoice_app (w : World) id inv new :
  findInvoice w id = Some inv →
  List.find (fun i => bool_decide (Invoice._id i = id)) (invoices w ++ new) = Some inv.
Proof.
  unfold findInvoice. induction (invoices w) as [|j l IH]; [done|]. cbn.
  by destruct (bool_decide (Invoice._id j = id)).
Qed.

(** No command changes or removes a stored invoice. *)
Lemma exec_keeps_invoice {X : Type} (c : Cmd X) (w : World) (before : list Invoice.t) :
  (∃ new, invoices w = before ++ new) →
  ∃ new, invoices (exec c w).1 = before ++ new.
Proof.
  intros [new Hw]. destruct (exec_invoices_grow c w) as (new' & -> & _).
  exists (new ++ new'). by rewrite Hw, app_assoc.
Qed.

Lemma Issues_anything (p : Async Response) : Issues (fun _ _ => True) p.
Proof. induction p as [r|X c k IH]; [done|]. by split. Qed.

Lemma handle_keeps_invoices (w : World) (req : Request) :
  ∃ new, invoices (handle w req).1 = invoices w ++ new.
Proof.
  apply (run_Issues (fun w' => ∃ new, invoices w' = invoices w ++ new) (fun _ _ => True)).
  - intros X c w' _. apply exec_keeps_invoice.
  - apply Issues_anything.
  - exists []. by rewrite app_nil_r.
Qed.

Lemma handleAll_keeps_invoices (reqs : list Request) :
  ∀ w, ∃ new, invoices (handleAll w reqs) = invoices w ++ new.
Proof.
  induction reqs as [|req reqs IH]; intros w; [exists []; by rewrite app_nil_r|].
  cbn [handleAll foldl]. destruct (IH (handle w req).1) as [new Hnew].
  destruct (handle_keeps_invoices w req) as [new' Hnew'].
  exists (new' ++ new). unfold handleAll in Hnew. by rewrite Hnew, Hnew', app_assoc.
Qed.

(** ** Retrieving an invoice twice *)

Lemma sameNames_refl (w : World) : sameNames w w.
Proof. by repeat split. Qed.

Lemma exec_keeps_sameNames (w0 : World) {X : Type} (c : Cmd X) (w : World) :
  keepsNames X c → sameNames w0 w → sameNames w0 (exec c w).1.
Proof.
  intros Hc (Hu & Hi & Hb & Hp). destruct c; cbn [keepsNames] in Hc; try done;
    cbn [exec fst]; try (by repeat split).
  - destruct (businesses w !! id) as [d|] eqn:Hd; [|by repeat split].
    cbn [fst]. repeat split; try done. intros id'. cbn [businesses with_businesses].
    rewrite <- Hb. destruct (decide (id = id')) as [<-|Hne].
    + rewrite lookup_insert_eq, Hd. cbn. unfold updateBusiness. by rewrite Hc.
    + by rewrite lookup_insert_ne.
  - unfold saveProductQuantity. destruct (products w !! id) as [p|] eqn:Hpid;
      [|by repeat split].
    cbn [fst]. repeat split; try done. intros id'. cbn [products with_products].
    rewrite <- Hp. destruct (decide (id = id')) as [<-|Hne].
    + by rewrite lookup_insert_eq, Hpid.
    + by rewrite lookup_insert_ne.
  - destruct (products w !! id) as [p|] eqn:Hpid; [|by repeat split].
    cbn [fst]. repeat split; try done. intros id'. cbn [products with_products].
    rewrite <- Hp. destruct (decide (id = id')) as [<-|Hne].
    + rewrite lookup_insert_eq, Hpid. cbn. unfold updateProduct. by rewrite Hc.
    + by rewrite lookup_insert_ne.
Qed.

(** A request that neither creates a document nor changes or removes a name
    issues only commands that keep the names. *)
Lemma dispatch_keepsNames (req : Request) :
  ¬ isCreation req → ¬ changesNames req → Issues keepsNames (dispatch req).
Proof.
  unfold isCreation, changesNames. intros Hcreate Hnames.
  unfold_handlers. destruct (route req) eqn:Hroute; try (exfalso; by apply Hcreate);
    try (exfalso; by apply Hnames).
  all: issues.
  all: cbn; match goal with
            | |- ?n = None => destruct n; [exfalso; apply Hnames; by eexists|done]
            end.
Qed.

Lemma populate_invoice_sameNames (w w' : World) (i : Invoice.t) :
  sameNames w w' → populate_invoice w' i = populate_invoice w i.
Proof.
  intros (Hu & Hi & Hb & Hp). unfold populate_invoice. f_equal.
  - unfold populate_user. by rewrite Hu.
  - unfold populate_business. specialize (Hb (Invoice.business i)).
    destruct (businesses w' !! _), (businesses w !! _); cbn in *; congruence.
  - apply list_fmap_ext. intros _ l _. unfold populate_line. f_equal.
    unfold populate_product. specialize (Hp (InvoiceLine.product l)).
    destruct (products w' !! _), (products w !! _); cbn in *; congruence.
Qed.

Lemma getInvoice_sameNames (w w' : World) user id :
  sameNames w w' →
  (run w' (getInvoice user id)).2 = (run w (getInvoice user id)).2.
Proof.
  intros Hsame. unfold getInvoice. rewrite !run_await. cbn [exec].
  assert (findInvoice w' id = findInvoice w id) as ->.
  { unfold findInvoice. by destruct Hsame as (_ & -> & _). }
  destruct (findInvoice w id) as [i|]; [|done]. cbn [fmap option_fmap option_map].
  rewrite (populate_invoice_sameNames w w' i Hsame). cbn [run snd].
  by repeat case_match.
Qed.

Lemma handleAll_keeps_sameNames (reqs : list Request) :
  ∀ w0 w, Forall (fun req => ¬ isCreation req ∧ ¬ changesNames req) reqs →
          sameNames w0 w → sameNames w0 (handleAll w reqs).
Proof.
  induction reqs as [|req reqs IH]; intros w0 w Hreqs Hw; [done|].
  pose proof (Forall_inv Hreqs) as [Hcreate Hnames].
  pose proof (Forall_inv_tail Hreqs) as Hrest.
  cbn [handleAll foldl]. apply IH; [done|].
  apply (run_Issues (sameNames w0) keepsNames); [|by apply dispatch_keepsNames|done].
  intros X c w'. apply exec_keeps_sameNames.
Qed.

(** C7 as stated does not hold: [GET /invoice/:id] shows the name of each
    product it refers to, so alice gets two different documents for her
    invoice when the administrator renames product A in between, which
    creates nothing. *)
Lemma retrieval_differs_after_rename :
  Forall (fun req => ¬ isCreation req) [renameA]
  ∧ ¬ retrievedTwiceAlike archive [renameA] (mkRequest (Some alice) (GetInvoice "inv1")).
Proof.
  split; [repeat constructor; cbn; tauto|].
  unfold retrievedTwiceAlike. vm_compute. intros H. discriminate H.
Qed.

(** C7, amended. Whatever requests are served, in whatever number, the
    stored invoices stay where they are, each with every field as it was
    stored (new invoices come after them): no request changes or deletes an
    invoice, a change of a product's price included.  Retrieving an invoice
    by id before and after a sequence of requests gives the same response
    when none of them creates a document, updates the name of a product or
    business, or deletes one. *)
Theorem invoices_are_immutable (w : World) (reqs : list Request) :
  (∃ new, invoices (handleAll w reqs) = invoices w ++ new)
  ∧ (∀ id inv, findInvoice w id = Some inv →
               findInvoice (handleAll w reqs) id = Some inv)
  ∧ (Forall (fun req => ¬ isCreation req ∧ ¬ changesNames req) reqs →
     ∀ user id, retrievedTwiceAlike w reqs (mkRequest (Some user) (GetInvoice id))).
Proof.
  destruct (handleAll_keeps_invoices reqs w) as [new Hnew].
  split; [by exists new|]. split.
  - intros id inv Hinv. unfold findInvoice at 1. rewrite Hnew. by apply findInvoice_app.
  - intros Hreqs user id. unfold retrievedTwiceAlike, handle, dispatch.
    cbn [route token authMiddleware]. apply getInvoice_sameNames.
    apply handleAll_keeps_sameNames; [done|apply sameNames_refl].
Qed.

(** The administrator changes the price of A to 99 and then renames it:
    alice's invoice is stored as before, with its price of 10; after the
    change of price alone she also retrieves the same document. *)
Lemma invoices_are_immutable_witness :
  findInvoice (handleAll archive [repriceOnly; renameA]) "inv1" = Some firstInvoice
  ∧ Product.price <$> products (handleAll archive [repriceOnly]) !! "A" = Some 99
  ∧ retrievedTwiceAlike archive [repriceOnly] (mkRequest (Some alice) (GetInvoice "inv1")).
Proof.
  split; [|split].
  - apply (proj1 (proj2 (invoices_are_immutable archive [repriceOnly; renameA]))).
    reflexivity.
  - reflexivity.
  - apply (proj2 (proj2 (invoices_are_immutable archive [repriceOnly]))).
    repeat constructor; cbn; try tauto. by intros [??].
Defined.

(** * Further properties of the handlers *)

(** ** Purchases ([PATCH /product/:id/quantity]) *)

Lemma run_getProduct (w : World) (id : string) :
  run w (getProduct id)
  = (w, match products w !! id with
        | Some p => json 200 (ProductDoc id p)
        | None => json 404 (Message "Product not found")
        end).
Proof. unfold getProduct. rewrite run_await. cbn [exec]. by destruct (products w !! id). Qed.

Lemma run_purchase_granted (w : World) id p d :
  products w !! id = Some p → 0 < d → d ≤ Product.quantity p →
  run w (purchase id (JsNumber d))
  = (with_products
       (<[id := Product.set_quantity (Product.quantity p - d) p]> (products w)) w,
     json 200 (MessageRemaining "Product purchased" (Product.quantity p - d))).
Proof.
  intros Hp Hd Hle. unfold purchase. destruct (Z.leb_spec d 0); [lia|].
  rewrite run_await. cbn [exec]. rewrite Hp. cbn [run].
  destruct (Z.eqb_spec (Product.quantity p) 0); [lia|].
  destruct (Z.gtb_spec d (Product.quantity p)); [lia|].
  rewrite run_await. cbn [exec]. unfold saveProductQuantity. by rewrite Hp.
Qed.

(** X1. A purchase of a positive quantity that the stock covers is answered
    200 with the remaining quantity; a [GET] of the product afterwards
    shows the same document with only its quantity reduced by what was
    bought, and every other product, and the users, businesses and
    invoices, are as before. *)
Theorem purchase_then_get (w : World) (id : string) (p : Product.t) (d : Z) :
  products w !! id = Some p → 0 < d → d ≤ Product.quantity p →
  let result := run w (purchase id (JsNumber d)) in
  result.2 = json 200 (MessageRemaining "Product purchased" (Product.quantity p - d))
  ∧ (run result.1 (getProduct id)).2
    = json 200 (ProductDoc id (Product.mk (Product.name p) (Product.description p)
                                 (Product.price p) (Product.quantity p - d)
                                 (Product.businessId p) (Product.createdAt p)))
  ∧ (∀ id', id' ≠ id → (run result.1 (getProduct id')).2 = (run w (getProduct id')).2)
  ∧ users result.1 = users w
  ∧ businesses result.1 = businesses w
  ∧ invoices result.1 = invoices w.
Proof.
  intros Hp Hd Hle result. subst result. rewrite (run_purchase_granted w id p d) by done.
  cbn [fst snd]. split; [done|]. split; [|split; [|done]].
  - rewrite run_getProduct. cbn [snd products with_products]. by rewrite lookup_insert_eq.
  - intros id' Hne. rewrite !run_getProduct. cbn [snd products with_products].
    by rewrite lookup_insert_ne.
Qed.

Lemma purchase_then_get_witness :
  (run shop (purchase "A" (JsNumber 2))).2
  = json 200 (MessageRemaining "Product purchased" 3)
  ∧ (run (run shop (purchase "A" (JsNumber 2))).1 (getProduct "A")).2
    = json 200 (ProductDoc "A" (Product.mk "Apple" None 10 3 "biz" 0)).
Proof.
  assert (products shop !! "A" = Some (Product.mk "Apple" None 10 5 "biz" 0)) as Hp
    by reflexivity.
  destruct (purchase_then_get shop "A" _ 2 Hp ltac:(lia) ltac:(simpl; lia))
    as (Hr & Hget & _).
  split; [exact Hr|exact Hget].
Defined.




(** ** Product documents ([POST], [PUT], [DELETE /product]) *)









Lemma run_deleteProduct (w : World) id :
  run w (deleteProduct id)
  = (with_products (delete id (products w)) w,
     match products w !! id with
     | Some _ => json 200 (Message "Product deleted")
     | None => json 404 (Message "Product not found")
     end).
Proof.
  unfold deleteProduct. rewrite run_await. cbn [exec]. by destruct (products w !! id).
Qed.

(** X8. [DELETE /product/:id] of a stored product is answered 200; after it
    a [GET] of the product and a second [DELETE] are both answered 404, the
    second delete changes nothing, and the other products are untouched. *)
Theorem deleteProduct_then_get (w : World) (id : string) (p : Product.t) :
  products w !! id = Some p →
  let result := run w (deleteProduct id) in
  result.2 = json 200 (Message "Product deleted")
  ∧ (run result.1 (getProduct id)).2 = json 404 (Message "Product not found")
  ∧ run result.1 (deleteProduct id) = (result.1, json 404 (Message "Product not found"))
  ∧ (∀ id', id' ≠ id → products result.1 !! id' = products w !! id').
Proof.
  intros Hp result. subst result. rewrite run_deleteProduct, Hp. cbn [fst snd].
  split; [done|]. split; [|split].
  - rewrite run_getProduct. cbn [snd products with_products]. by rewrite lookup_delete_eq.
  - rewrite run_deleteProduct. cbn [products with_products]. rewrite lookup_delete_eq.
    f_equal. unfold with_products. cbn [users businesses invoices]. f_equal.
    apply delete_id. apply lookup_delete_eq.
  - intros id' Hne. cbn [products with_products]. by rewrite lookup_delete_ne.
Qed.

Lemma deleteProduct_then_get_witness :
  (run shop (deleteProduct "A")).2 = json 200 (Message "Product deleted")
  ∧ (run (run shop (deleteProduct "A")).1 (getProduct "A")).2
    = json 404 (Message "Product not found")
  ∧ (run (run shop (deleteProduct "A")).1 (getProduct "B")).2
    = json 200 (ProductDoc "B" (Product.mk "Bean" None 7 0 "biz" 0)).
Proof.
  destruct (deleteProduct_then_get shop "A" (Product.mk "Apple" None 10 5 "biz" 0) eq_refl)
    as (Hr & Hget & _ & Hother).
  split; [exact Hr|]. split; [exact Hget|].
  rewrite run_getProduct. cbn [snd]. rewrite Hother by done. reflexivity.
Defined.

Lemma run_getInvoice_staff (w : World) user iid :
  role user ≠ customer →
  run w (getInvoice user iid)
  = (w, match findInvoice w iid with
        | Some inv => json 200 (InvoiceDoc (populate_invoice w inv))
        | None => json 404 (Message "Invoice not found")
        end).
Proof.
  intros Hrole. unfold getInvoice. rewrite run_await. cbn [exec].
  destruct (findInvoice w iid) as [inv|]; [|done].
  cbn [fmap option_fmap option_map run]. by rewrite bool_decide_eq_false_2.
Qed.

(** X9. Deleting a product does not touch the invoices that refer to it.
    An invoice is still retrieved with its own quantities, prices and total;
    only the reference of each line to the deleted product is shown as
    [null], the other lines keeping the name of their product. *)
Theorem deleteProduct_leaves_invoices
    (w : World) (id : string) (user : AuthUser) (iid : string) (inv : Invoice.t) :
  findInvoice w iid = Some inv → role user ≠ customer →
  let w1 := (run w (deleteProduct id)).1 in
  invoices w1 = invoices w
  ∧ ∃ doc,
      (run w1 (getInvoice user iid)).2 = json 200 (InvoiceDoc doc)
      ∧ Populated.totalAmount doc = Invoice.totalAmount inv
      ∧ Populated.invoiceNumber doc = Invoice.invoiceNumber inv
      ∧ Populated.products doc
        = (fun l => Populated.mkLine
                      (if bool_decide (InvoiceLine.product l = id) then None
                       else populate_product w (InvoiceLine.product l))
                      (InvoiceLine.quantity l) (InvoiceLine.pricePerUnit l)
                      (InvoiceLine.totalPrice l))
            <$> Invoice.products inv.
Proof.
  intros Hinv Hrole w1. subst w1. rewrite run_deleteProduct. cbn [fst].
  split; [done|]. rewrite run_getInvoice_staff by done. cbn [snd].
  assert (findInvoice (with_products (delete id (products w)) w) iid = Some inv) as ->
    by exact Hinv.
  eexists. split; [done|]. cbn [populate_invoice Populated.totalAmount
    Populated.invoiceNumber Populated.products]. split; [done|]. split; [done|].
  apply list_fmap_ext. intros _ l _. unfold populate_line, populate_product.
  cbn [products with_products]. case_bool_decide as Hl.
  - by rewrite Hl, lookup_delete_eq.
  - by rewrite lookup_delete_ne.
Qed.

Lemma deleteProduct_leaves_invoices_witness :
  ∃ doc,
    (run (run archive (deleteProduct "A")).1 (getInvoice root "inv1")).2
    = json 200 (InvoiceDoc doc)
    ∧ Populated.totalAmount doc = 20
    ∧ Populated.products doc = [Populated.mkLine None 2 10 20].
Proof.
  destruct (deleteProduct_leaves_invoices archive "A" root "inv1" firstInvoice
              eq_refl ltac:(done)) as (_ & doc & Hr & Htotal & _ & Hlines).
  exists doc. split; [exact Hr|]. split; [exact Htotal|]. rewrite Hlines. reflexivity.
Defined.

(** ** Orders ([POST /invoice]) *)

Lemma createInvoice_reaches_commit (w : World) user b env items :
  InvoiceBody.products b = Some items → items ≠ [] →
  (∀ l1 it l2, items = l1 ++ it :: l2 → inStock w l1 it) →
  ∃ ps lines,
    run w (createInvoice user b env)
    = run (with_products ps w) (commitInvoice user b env (sumOfLineTotals lines) lines)
    ∧ (∀ id, ps !! id
             = (fun p => Product.set_quantity (Product.quantity p - ordered id items) p)
                 <$> products w !! id)
    ∧ length lines = length items
    ∧ ∀ (i : nat) item, items !! i = Some item →
        ∃ p, products w !! Item.product item = Some p ∧ lines !! i = Some (lineOf item p).
Proof.
  intros Hitems Hne Hstock.
  destruct (invoiceLoop_completes items w 0 [] (commitInvoice user b env) Hstock)
    as (ps & lines & Hrun & Hps & Hlen & Hlines).
  exists ps, lines. split; [|done].
  unfold createInvoice. rewrite Hitems. destruct items as [|item rest]; [done|].
  rewrite Hrun. by rewrite Z.add_0_l.
Qed.

Lemma existsb_false_elem_of {A : Type} (f : A → bool) (l : list A) :
  (∀ x, x ∈ l → f x = false) → existsb f l = false.
Proof.
  intros Hall. destruct (existsb f l) eqn:Hex; [|done].
  apply existsb_elem_of in Hex as (x & Hx & Hf). by rewrite (Hall x Hx) in Hf.
Qed.



(** X11. An order whose items can all be reserved but that names no
    business fails only when the invoice is saved: the answer is 500 with
    the validation error on [business], no invoice is stored, and the
    quantities the loop has already written stay reduced. *)
Theorem createInvoice_without_business
    (w : World) (user : AuthUser) (b : InvoiceBody.t) (env : Env) (items : list Item.t) :
  InvoiceBody.products b = Some items → items ≠ [] →
  (∀ l1 it l2, items = l1 ++ it :: l2 → inStock w l1 it) →
  InvoiceBody.business b = None →
  let result := run w (createInvoice user b env) in
  result.2 = json 500 (MessageError "Invoice creation failed"
                         (ValidationError "Invoice" ["business"]))
  ∧ invoices result.1 = invoices w
  ∧ (∀ id, quantityOnHand result.1 id
           = (fun q => q - ordered id items) <$> quantityOnHand w id).
Proof.
  intros Hitems Hne Hstock Hbiz result. subst result.
  destruct (createInvoice_reaches_commit w user b env items Hitems Hne Hstock)
    as (ps & lines & Hrun & Hps & _).
  rewrite Hrun, run_commitInvoice, Hbiz. cbn [fst snd]. split; [done|]. split; [done|].
  intros id. unfold quantityOnHand. cbn [products with_products].
  rewrite Hps. by destruct (products w !! id).
Qed.

Lemma createInvoice_without_business_witness :
  (run shop (createInvoice alice orderWithoutBusiness env1)).2
  = json 500 (MessageError "Invoice creation failed"
                (ValidationError "Invoice" ["business"]))
  ∧ quantityOnHand (run shop (createInvoice alice orderWithoutBusiness env1)).1 "A"
    = Some 3.
Proof.
  destruct (createInvoice_without_business shop alice orderWithoutBusiness env1
              [Item.mk "A" 2]) as (Hr & _ & Hq).
  - reflexivity.
  - done.
  - intros [|x [|y l1]] it l2 Heq; simplify_eq/=.
    eexists. split; [reflexivity|]. simpl. lia.
  - reflexivity.
  - split; [exact Hr|]. rewrite Hq. reflexivity.
Defined.

Lemma find_fresh {A : Type} (f : A → bool) (l : list A) (x : A) :
  existsb f l = false → f x = true → List.find f (l ++ [x]) = Some x.
Proof.
  intros Hl Hx. induction l as [|y l IH]; cbn in *; [by rewrite Hx|].
  destruct (f y); [done|]. by apply IH.
Qed.

(** X12. The invoice that [POST /invoice] returns with its 201 can be read
    back: [GET /invoice/:id] with its id, by the customer who ordered (a
    stored user) or by any other role, is answered 200 with that invoice,
    and [GET /invoice] lists it last, after the invoices that were there. *)
Theorem createInvoice_then_get
    (w : World) (user : AuthUser) (b : InvoiceBody.t) (env : Env)
    (w' : World) (m : string) (inv : Invoice.t) :
  run w (createInvoice user b env) = (w', json 201 (MessageInvoice m inv)) →
  is_Some (users w !! userId user) →
  run w' (getInvoice user (Invoice._id inv))
  = (w', json 200 (InvoiceDoc (populate_invoice w' inv)))
  ∧ Populated.customer (populate_invoice w' inv) = populate_user w (userId user)
  ∧ (run w' getInvoices).2
    = json 200 (InvoiceDocs ((populate_invoice w' <$> invoices w)
                             ++ [populate_invoice w' inv])).
Proof.
  intros Hrun [u Hu].
  destruct (createInvoice_outcome w user b env) as [ps [[H400 _]|[lines Hcommit]]].
  { rewrite Hrun in H400. done. }
  rewrite Hcommit, run_commitInvoice in Hrun.
  destruct (InvoiceBody.business b) as [biz|]; [|done]. cbv zeta in Hrun.
  cbn [invoices with_products] in Hrun.
  destruct (existsb (fun j => bool_decide (Invoice._id j = objectId env)) (invoices w))
    eqn:Hid; [done|].
  destruct (existsb (fun j => bool_decide (Invoice.invoiceNumber j
                                            = "INV-" +:+ pretty (nowValidate env)))
              (invoices w)) eqn:Hnum; [done|].
  injection Hrun as <- <- <-. cbn [Invoice._id].
  assert (findInvoice
            (with_invoices
               (invoices w ++ [Invoice.mk (objectId env) (userId user) biz lines
                                 (sumOfLineTotals lines) (now env)
                                 ("INV-" +:+ pretty (nowValidate env))])
               (with_products ps w)) (objectId env)
          = Some (Invoice.mk (objectId env) (userId user) biz lines
                    (sumOfLineTotals lines) (now env)
                    ("INV-" +:+ pretty (nowValidate env)))) as Hfind.
  { unfold findInvoice. cbn [invoices with_invoices].
    apply find_fresh; [exact Hid|]. by apply bool_decide_eq_true. }
  split; [|split].
  - unfold getInvoice. rewrite run_await. cbn [exec]. rewrite Hfind.
    cbn [fmap option_fmap option_map run populate_invoice Populated.customer
         Invoice.customer].
    unfold populate_user. cbn [users with_invoices with_products]. rewrite Hu. cbn.
    case_bool_decide; [|done]. by rewrite bool_decide_eq_false_2 by (by intros []).
  - done.
  - unfold getInvoices. rewrite run_await. cbn [exec run snd invoices with_invoices].
    by rewrite fmap_app.
Qed.

Lemma createInvoice_then_get_witness :
  let result := run archive (createInvoice bob (order [Item.mk "A" 1])
                               (mkEnv "inv2" 2000 2001)) in
  result.2 = json 201 (MessageInvoice "Invoice created"
                         (Invoice.mk "inv2" "bob" "biz" [InvoiceLine.mk "A" 1 10 10] 10 2000
                            "INV-2001"))
  ∧ (run result.1 (getInvoice bob "inv2")).2
    = json 200 (InvoiceDoc
        (Populated.mkInvoice "inv2"
           (Some (Populated.mkUser "bob" "Bob" "bob@example.org"))
           (Some (Populated.mkBusiness "biz" "Grocer"))
           [Populated.mkLine (Some (Populated.mkProduct "A" "Apple")) 1 10 10]
           10 2000 "INV-2001")).
Proof.
  intros result.
  assert (result = (result.1, json 201 (MessageInvoice "Invoice created"
                      (Invoice.mk "inv2" "bob" "biz" [InvoiceLine.mk "A" 1 10 10] 10 2000
                         "INV-2001")))) as Hrun by reflexivity.
  split; [by rewrite Hrun|].
  destruct (createInvoice_then_get archive bob (order [Item.mk "A" 1])
              (mkEnv "inv2" 2000 2001) _ _ _ Hrun ltac:(by eexists)) as (Hget & _).
  etrans; [exact (f_equal snd Hget)|]. reflexivity.
Defined.

(** ** The invoice collection *)






(** X14. The invoice number that the schema's hook gives to a new invoice
    determines the time of validation: two invoices without a number that
    are validated at different times get different numbers, so that the
    second is not refused for its number when the first has been stored. *)
Theorem invoiceNumber_distinct_times
    (w w1 : World) (d1 d2 : InvoiceDraft.t) (t1 t2 : Z) (i1 : Invoice.t) (biz : string) :
  InvoiceDraft.invoiceNumber d1 = None → InvoiceDraft.invoiceNumber d2 = None →
  saveInvoice d1 t1 w = (w1, Resolved i1) →
  t2 ≠ t1 →
  InvoiceDraft.business d2 = Some biz →
  InvoiceDraft._id d2 ≠ InvoiceDraft._id d1 →
  (∀ j, j ∈ invoices w →
        Invoice._id j ≠ InvoiceDraft._id d2
        ∧ Invoice.invoiceNumber j ≠ "INV-" +:+ pretty t2) →
  Invoice.invoiceNumber i1 = "INV-" +:+ pretty t1
  ∧ ∃ w2 i2, saveInvoice d2 t2 w1 = (w2, Resolved i2)
             ∧ Invoice.invoiceNumber i2 = "INV-" +:+ pretty t2
             ∧ invoices w2 = invoices w ++ [i1; i2].
Proof.
  intros Hn1 Hn2 Hsave Ht Hbiz Hid Hfresh.
  unfold saveInvoice, preValidate in Hsave. rewrite Hn1 in Hsave.
  destruct (InvoiceDraft.business d1) as [biz1|]; [|done]. cbv zeta in Hsave.
  cbn [Invoice._id] in Hsave.
  destruct (existsb (fun j => bool_decide (Invoice._id j = InvoiceDraft._id d1))
              (invoices w)); [done|].
  destruct (existsb (fun j => bool_decide (Invoice.invoiceNumber j = "INV-" +:+ pretty t1))
              (invoices w)); [done|].
  injection Hsave as <- <-. split; [done|].
  unfold saveInvoice, preValidate. rewrite Hn2, Hbiz. cbv zeta.
  cbn [Invoice._id invoices with_invoices].
  rewrite !existsb_app. cbn [existsb Invoice._id Invoice.invoiceNumber].
  rewrite (existsb_false_elem_of _ (invoices w)).
  2:{ intros j Hj. apply bool_decide_eq_false. by apply Hfresh. }
  rewrite (existsb_false_elem_of _ (invoices w)).
  2:{ intros j Hj. apply bool_decide_eq_false. by apply Hfresh. }
  rewrite (bool_decide_eq_false_2 (InvoiceDraft._id d1 = InvoiceDraft._id d2))
    by (by intros ?).
  rewrite (bool_decide_eq_false_2 ("INV-" +:+ pretty t1 = "INV-" +:+ pretty t2)).
  2:{ intros Heq. apply Ht. symmetry. cbn in Heq. injection Heq as Heq.
      by apply (inj pretty). }
  cbn [orb]. eexists _, _. split; [reflexivity|]. split; [done|].
  cbn [invoices with_invoices]. by rewrite <- app_assoc.
Qed.

Lemma invoiceNumber_distinct_times_witness :
  Invoice.invoiceNumber
    <$> invoices (saveInvoice (draftOf "inv2") 1002
                    (saveInvoice (draftOf "inv1") 1001 shop).1).1
  = ["INV-1001"; "INV-1002"].
Proof.
  destruct (invoiceNumber_distinct_times shop (saveInvoice (draftOf "inv1") 1001 shop).1
              (draftOf "inv1") (draftOf "inv2") 1001 1002
              (Invoice.mk "inv1" "alice" "biz" [] 0 1000 "INV-1001") "biz"
              eq_refl eq_refl eq_refl ltac:(done) eq_refl ltac:(done))
    as (_ & w2 & i2 & Hsave & Hnum & Hinvoices).
  - intros j Hj. by apply elem_of_nil in Hj.
  - rewrite Hsave. cbn [fst]. rewrite Hinvoices.
    change (invoices shop) with (@nil Invoice.t). cbn [app fmap list_fmap].
    by rewrite Hnum.
Defined.

(** ** What a reservation never touches *)

Lemma onlyQuantitiesDiffer_refl (w : World) : onlyQuantitiesDiffer w w.
Proof. split; [done|]. split; [done|]. intros id. by destruct (products w !! id). Qed.

Lemma exec_reservationCmd_frame (w0 : World) {X : Type} (c : Cmd X) (w : World) :
  reservationCmd c → onlyQuantitiesDiffer w0 w → onlyQuantitiesDiffer w0 (exec c w).1.
Proof.
  intros Hc (Hu & Hb & Hp). destruct c; try done; cbn [exec fst].
  - unfold saveProductQuantity. destruct (products w !! id) as [p|] eqn:Hid; [|done].
    cbn [fst]. split; [done|]. split; [done|]. intros id'.
    cbn [products with_products]. specialize (Hp id').
    destruct (decide (id = id')) as [<-|Hne].
    + rewrite lookup_insert_eq. rewrite Hid in Hp.
      by destruct (products w0 !! id).
    + by rewrite lookup_insert_ne.
  - unfold saveInvoice. repeat case_match; exact (conj Hu (conj Hb Hp)).
Qed.

Lemma purchase_keeps_invoices (w : World) id v :
  invoices (run w (purchase id v)).1 = invoices w.
Proof.
  destruct v as [| |?|d|?]; try done. unfold purchase.
  destruct (d <=? 0); [done|]. rewrite run_await. cbn [exec].
  destruct (products w !! id) as [p|] eqn:Hp; [|done]. cbn [run].
  destruct (Product.quantity p =? 0); [done|].
  destruct (d >? Product.quantity p); [done|].
  rewrite run_await. cbn [exec]. unfold saveProductQuantity. by rewrite Hp.
Qed.

Lemma purchase_issues id v : Issues (@reservationCmd) (purchase id v).
Proof. unfold purchase. issues. Qed.

(** X15. A purchase and an order, whatever their input and their outcome,
    leave the users and the businesses as they were, create and delete no
    product, and change no field of a product other than its quantity; a
    purchase also leaves the invoices as they were. *)
Theorem reservations_change_quantities_only
    (w : World) (id : string) (v : JsValue) (user : AuthUser) (b : InvoiceBody.t)
    (env : Env) :
  onlyQuantitiesDiffer w (run w (purchase id v)).1
  ∧ invoices (run w (purchase id v)).1 = invoices w
  ∧ onlyQuantitiesDiffer w (run w (createInvoice user b env)).1.
Proof.
  split; [|split].
  - apply (run_Issues (onlyQuantitiesDiffer w) (@reservationCmd));
      [|apply purchase_issues|apply onlyQuantitiesDiffer_refl].
    intros X c w'. apply exec_reservationCmd_frame.
  - apply purchase_keeps_invoices.
  - apply (run_Issues (onlyQuantitiesDiffer w) (@reservationCmd));
      [|apply createInvoice_issues|apply onlyQuantitiesDiffer_refl].
    intros X c w'. apply exec_reservationCmd_frame.
Qed.

(** ** Users ([POST /users/signup], [POST /users/login]) *)

Lemma find_map_to_list_Some {V : Type} (f : string * V → bool) (m : gmap string V) k v :
  List.find f (map_to_list m) = Some (k, v) → m !! k = Some v ∧ f (k, v) = true.
Proof.
  intros [Hin Hf]%find_some. split; [|done].
  by apply elem_of_map_to_list, list_elem_of_In.
Qed.

Lemma find_map_to_list_None {V : Type} (f : string * V → bool) (m : gmap string V) :
  List.find f (map_to_list m) = None ↔ ∀ k v, m !! k = Some v → f (k, v) = false.
Proof.
  split.
  - intros Hnone k v Hk. apply (find_none _ _ Hnone).
    by apply list_elem_of_In, elem_of_map_to_list.
  - intros Hall. destruct (List.find f (map_to_list m)) as [[k v]|] eqn:Hfind; [|done].
    apply find_map_to_list_Some in Hfind as [Hk Hf]. by rewrite (Hall k v Hk) in Hf.
Qed.

Lemma run_login_found (w : World) email password isMatch token id u :
  email ≠ EmptyString → password ≠ EmptyString →
  List.find (fun e => bool_decide (User.email e.2 = email)) (map_to_list (users w))
  = Some (id, u) →
  run w (login email password isMatch token)
  = (w, if bool_decide (User.password u = EmptyString)
        then json 400 (Message "Invalid credentials")
        else if isMatch
             then json 200 (TokenUser token (mkAuthUser id (User.role u)))
             else json 400 (Message "Invalid credentials")).
Proof.
  intros He Hp Hfind. unfold login.
  rewrite (bool_decide_eq_false_2 (email = EmptyString)) by done.
  rewrite (bool_decide_eq_false_2 (password = EmptyString)) by done.
  cbn [orb]. rewrite run_await. cbn [exec]. rewrite Hfind. cbn [run fst snd].
  by destruct (bool_decide (User.password u = EmptyString)), isMatch.
Qed.

(** X16. Signing up with an email that no stored user has, under a free id,
    is answered 201 and stores the user with the hash as its password and
    the role customer when the body names none; the other users are
    untouched.  Logging in afterwards with that email succeeds when the
    password matches, with a token for the new user's id and role, and is
    refused when it does not. *)
Theorem signup_then_login
    (w : World) (b : SignupBody.t) (hashedPassword : string) (env : Env) (token : string) :
  (∀ id u, users w !! id = Some u → User.email u ≠ SignupBody.email b) →
  users w !! objectId env = None →
  SignupBody.email b ≠ EmptyString → SignupBody.password b ≠ EmptyString →
  hashedPassword ≠ EmptyString →
  let created := User.mk (SignupBody.name b) (SignupBody.email b) hashedPassword
                   (default customer (SignupBody.role b)) (SignupBody.businessId b) in
  let result := run w (signup b hashedPassword env) in
  result.2 = json 201 (Message "User created successfully")
  ∧ users result.1 !! objectId env = Some created
  ∧ (∀ id, id ≠ objectId env → users result.1 !! id = users w !! id)
  ∧ run result.1 (login (SignupBody.email b) (SignupBody.password b) true token)
    = (result.1, json 200 (TokenUser token
                             (mkAuthUser (objectId env) (User.role created))))
  ∧ (run result.1 (login (SignupBody.email b) (SignupBody.password b) false token)).2
    = json 400 (Message "Invalid credentials").
Proof.
  intros Hnew Hfree He Hp Hh created result.
  assert (result = (with_users (<[objectId env := created]> (users w)) w,
                    json 201 (Message "User created successfully"))) as ->.
  { subst result. unfold signup. rewrite run_await. cbn [exec].
    rewrite (proj2 (find_map_to_list_None _ (users w))).
    2:{ intros k v Hk. apply bool_decide_eq_false. by apply (Hnew k). }
    cbn [run]. rewrite run_await. cbn [exec]. unfold saveNewUser. rewrite Hfree.
    rewrite existsb_false_elem_of; [done|].
    intros [k v] Hkv%elem_of_map_to_list. apply bool_decide_eq_false. by apply (Hnew k). }
  cbn [fst snd users with_users]. split; [done|].
  split; [by rewrite lookup_insert_eq|]. split; [intros id Hne; by rewrite lookup_insert_ne|].
  assert (List.find (fun e => bool_decide (User.email e.2 = SignupBody.email b))
            (map_to_list (<[objectId env := created]> (users w)))
          = Some (objectId env, created)) as Hfind.
  { destruct (List.find _ (map_to_list (<[objectId env := created]> (users w))))
      as [[k v]|] eqn:Hfind.
    - apply find_map_to_list_Some in Hfind as [Hk Hemail].
      apply bool_decide_eq_true in Hemail. cbn in Hemail.
      destruct (decide (k = objectId env)) as [->|Hne].
      + rewrite lookup_insert_eq in Hk. by injection Hk as <-.
      + rewrite lookup_insert_ne in Hk by done. by destruct (Hnew k v Hk).
    - exfalso. pose proof (proj1 (find_map_to_list_None _ _) Hfind (objectId env) created)
        as Hfalse.
      rewrite lookup_insert_eq in Hfalse. specialize (Hfalse eq_refl).
      by apply bool_decide_eq_false in Hfalse. }
  split.
  - rewrite (run_login_found _ _ _ _ _ (objectId env) created) by done.
    by rewrite bool_decide_eq_false_2.
  - rewrite (run_login_found _ _ _ _ _ (objectId env) created) by done.
    by rewrite bool_decide_eq_false_2.
Qed.

Lemma signup_then_login_witness :
  users (run archive (signup carol "h4" carolEnv)).1 !! "carol"
  = Some (User.mk "Carol" "carol@example.org" "h4" customer None)
  ∧ (run (run archive (signup carol "h4" carolEnv)).1
       (login "carol@example.org" "secret" true "jwt")).2
    = json 200 (TokenUser "jwt" (mkAuthUser "carol" customer)).
Proof.
  assert (∀ id u, users archive !! id = Some u → User.email u ≠ SignupBody.email carol)
    as Hnew.
  { intros id u. unfold archive. cbn [users].
    intros [[_ <-]|[_ [[_ <-]|[_ [[_ <-]|[_ H]]%lookup_insert_Some]]%lookup_insert_Some]]
             %lookup_insert_Some; [discriminate..|].
    by rewrite lookup_empty in H. }
  assert (users archive !! objectId carolEnv = None) as Hfree by reflexivity.
  destruct (signup_then_login archive carol "h4" carolEnv "jwt" Hnew Hfree
              ltac:(discriminate) ltac:(discriminate) ltac:(discriminate))
    as (_ & Hstored & _ & Hlogin & _).
  split; [exact Hstored|]. exact (f_equal snd Hlogin).
Defined.

(** X17. Signing up with the email of a stored user is answered 400 "User
    already exists" and changes nothing. *)
Theorem signup_existing_email
    (w : World) (b : SignupBody.t) (hashedPassword : string) (env : Env)
    (id : string) (u : User.t) :
  users w !! id = Some u → User.email u = SignupBody.email b →
  run w (signup b hashedPassword env) = (w, json 400 (Message "User already exists")).
Proof.
  intros Hu Hemail. unfold signup. rewrite run_await. cbn [exec].
  destruct (List.find _ (map_to_list (users w))) as [e|] eqn:Hfind; [done|].
  pose proof (proj1 (find_map_to_list_None _ _) Hfind id u Hu) as Hfalse.
  by apply bool_decide_eq_false in Hfalse.
Qed.

Lemma signup_existing_email_witness :
  run archive (signup (SignupBody.mk "Eve" "alice@example.org" "pw" (Some admin) None)
                 "h5" carolEnv)
  = (archive, json 400 (Message "User already exists")).
Proof.
  apply (signup_existing_email archive _ "h5" carolEnv "alice"
           (User.mk "Alice" "alice@example.org" "h1" customer None)); reflexivity.
Defined.

(** X18. [POST /users/login] never changes the store.  With an email and a
    password given, it answers an unknown email and a password that does
    not match in the same way, 400 "Invalid credentials", so the response
    does not tell whether the email belongs to a user. *)
Theorem login_failures_look_alike
    (w : World) (email password : string) (isMatch : bool) (token : string) :
  (run w (login email password isMatch token)).1 = w
  ∧ (email ≠ EmptyString → password ≠ EmptyString →
     isMatch = false ∨ (∀ id u, users w !! id = Some u → User.email u ≠ email) →
     (run w (login email password isMatch token)).2
     = json 400 (Message "Invalid credentials")).
Proof.
  split.
  - unfold login. destruct (_ || _); [done|]. rewrite run_await. cbn [exec].
    by repeat case_match.
  - intros He Hp Hcase.
    destruct (List.find (fun e => bool_decide (User.email e.2 = email))
                (map_to_list (users w))) as [[id u]|] eqn:Hfind.
    + rewrite (run_login_found w email password isMatch token id u) by done. cbn [snd].
      destruct Hcase as [->|Hunknown]; [by case_bool_decide|].
      apply find_map_to_list_Some in Hfind as [Hu Hemail].
      apply bool_decide_eq_true in Hemail. by destruct (Hunknown id u Hu).
    + unfold login.
      rewrite (bool_decide_eq_false_2 (email = EmptyString)) by done.
      rewrite (bool_decide_eq_false_2 (password = EmptyString)) by done.
      cbn [orb]. rewrite run_await. cbn [exec]. by rewrite Hfind.
Qed.

Lemma login_failures_look_alike_witness :
  (run archive (login "alice@example.org" "guess" false "jwt")).2
  = (run archive (login "nobody@example.org" "guess" true "jwt")).2.
Proof.
  destruct (login_failures_look_alike archive "alice@example.org" "guess" false "jwt")
    as [_ Hwrong].
  destruct (login_failures_look_alike archive "nobody@example.org" "guess" true "jwt")
    as [_ Hunknown].
  rewrite Hwrong; [|discriminate|discriminate|by left].
  rewrite Hunknown; [reflexivity|discriminate|discriminate|].
  right. intros id u. unfold archive. cbn [users].
  intros [[_ <-]|[_ [[_ <-]|[_ [[_ <-]|[_ H]]%lookup_insert_Some]]%lookup_insert_Some]]
           %lookup_insert_Some; [discriminate..|].
  by rewrite lookup_empty in H.
Defined.

(** X19. A login is answered 200 only for a stored user with the given
    email whose password matched, and the token's payload then carries that
    user's id and role. *)
Theorem login_succeeds_for_stored_user
    (w : World) (email password : string) (isMatch : bool) (token : string) :
  status (run w (login email password isMatch token)).2 = 200 →
  ∃ id u, users w !! id = Some u
          ∧ User.email u = email
          ∧ isMatch = true
          ∧ (run w (login email password isMatch token)).2
            = json 200 (TokenUser token (mkAuthUser id (User.role u))).
Proof.
  unfold login. destruct (_ || _); [done|]. rewrite run_await. cbn [exec].
  destruct (List.find _ (map_to_list (users w))) as [[id u]|] eqn:Hfind; [|done].
  cbn [run snd fst]. apply find_map_to_list_Some in Hfind as [Hu Hemail].
  apply bool_decide_eq_true in Hemail. cbn in Hemail.
  destruct (bool_decide (User.password u = EmptyString)); [done|].
  destruct isMatch; [|done]. intros _. by exists id, u.
Qed.

Lemma login_succeeds_for_stored_user_witness :
  ∃ id u, users archive !! id = Some u
          ∧ User.email u = "bob@example.org"
          ∧ (run archive (login "bob@example.org" "pw" true "jwt")).2
            = json 200 (TokenUser "jwt" (mkAuthUser id (User.role u))).
Proof.
  destruct (login_succeeds_for_stored_user archive "bob@example.org" "pw" true "jwt"
              eq_refl) as (id & u & Hu & Hemail & _ & Hr).
  exists id, u. split; [exact Hu|]. split; [exact Hemail|exact Hr].
Defined.

(** ** Businesses ([PUT], [DELETE /business/:id]) *)

Lemma run_getBusiness (w : World) id :
  run w (getBusiness id)
  = (w, match businesses w !! id with
        | Some d => json 200 (BusinessDoc (populate_owner w (id, d)))
        | None => json 404 (Message "Business not found")
        end).
Proof.
  unfold getBusiness. rewrite run_await. cbn [exec]. by destruct (businesses w !! id).
Qed.

Lemma run_deleteBusiness (w : World) id :
  run w (deleteBusiness id)
  = (with_businesses (delete id (businesses w)) w,
     match businesses w !! id with
     | Some _ => json 200 (Message "Business deleted")
     | None => json 404 (Message "Business not found")
     end).
Proof.
  unfold deleteBusiness. rewrite run_await. cbn [exec]. by destruct (businesses w !! id).
Qed.

(** X20. Deleting a business removes that document only.  The business is
    then not found, but the products it owns and the invoices made out to
    it stay in the store: an invoice is still retrieved with its lines and
    total, with [null] for the business when it was the deleted one. *)
Theorem deleteBusiness_does_not_cascade
    (w : World) (id : string) (d : Business.t) (user : AuthUser) (iid : string)
    (inv : Invoice.t) :
  businesses w !! id = Some d → findInvoice w iid = Some inv → role user ≠ customer →
  let result := run w (deleteBusiness id) in
  result.2 = json 200 (Message "Business deleted")
  ∧ (run result.1 (getBusiness id)).2 = json 404 (Message "Business not found")
  ∧ products result.1 = products w
  ∧ invoices result.1 = invoices w
  ∧ ∃ doc,
      (run result.1 (getInvoice user iid)).2 = json 200 (InvoiceDoc doc)
      ∧ Populated.business doc
        = (if bool_decide (Invoice.business inv = id) then None
           else populate_business w (Invoice.business inv))
      ∧ Populated.products doc = populate_line w <$> Invoice.products inv
      ∧ Populated.totalAmount doc = Invoice.totalAmount inv.
Proof.
  intros Hd Hinv Hrole result. subst result. rewrite run_deleteBusiness, Hd. cbn [fst snd].
  split; [done|]. split; [|split; [done|split; [done|]]].
  - rewrite run_getBusiness. cbn [snd businesses with_businesses].
    by rewrite lookup_delete_eq.
  - rewrite run_getInvoice_staff by done. cbn [snd].
    assert (findInvoice (with_businesses (delete id (businesses w)) w) iid = Some inv) as ->
      by exact Hinv.
    eexists. split; [done|].
    cbn [populate_invoice Populated.business Populated.products Populated.totalAmount].
    split; [|done]. unfold populate_business. cbn [businesses with_businesses].
    case_bool_decide as Hb.
    + by rewrite Hb, lookup_delete_eq.
    + by rewrite lookup_delete_ne.
Qed.

Lemma deleteBusiness_does_not_cascade_witness :
  (run (run archive (deleteBusiness "biz")).1 (getBusiness "biz")).2
  = json 404 (Message "Business not found")
  ∧ Product.businessId <$> products (run archive (deleteBusiness "biz")).1 !! "A"
    = Some "biz"
  ∧ ∃ doc,
      (run (run archive (deleteBusiness "biz")).1 (getInvoice root "inv1")).2
      = json 200 (InvoiceDoc doc)
      ∧ Populated.business doc = None
      ∧ Populated.totalAmount doc = 20.
Proof.
  destruct (deleteBusiness_does_not_cascade archive "biz"
              (Business.mk "Grocer" None None None 0 "root") root "inv1" firstInvoice
              eq_refl eq_refl ltac:(discriminate))
    as (_ & Hget & Hproducts & _ & doc & Hr & Hbusiness & _ & Htotal).
  split; [exact Hget|]. split; [by rewrite Hproducts|].
  exists doc. split; [exact Hr|]. split; [exact Hbusiness|exact Htotal].
Defined.




(** ** Purchases in sequence and in parallel *)


Lemma reservations_interleaved_keep_stockNonNegative_witness :
  stockNonNegative (interleave readsFirst (shop, dispatch <$> twoOrders)).1
  ∧ quantityOnHand (interleave readsFirst (shop, dispatch <$> twoOrders)).1 "A" = Some 0.
Proof.
  split; [|reflexivity].
  apply (reservations_interleaved_keep_stockNonNegative readsFirst shop twoOrders
           shop_stockNonNegative).
  repeat constructor.
Defined.

Lemma handle_keeps_customersExist_witness :
  customersExist
    (handle archive (mkRequest (Some bob) (PostInvoice (order [Item.mk "A" 1])
                                             (mkEnv "inv2" 2000 2001)))).1
  ∧ Invoice.customer
      <$> invoices (handle archive (mkRequest (Some bob)
                      (PostInvoice (order [Item.mk "A" 1]) (mkEnv "inv2" 2000 2001)))).1
    = ["alice"; "bob"].
Proof.
  split; [|reflexivity].
  apply (handle_keeps_customersExist archive).
  - intros user [= <-]. by eexists.
  - intros inv ->%list_elem_of_singleton. by eexists.
Defined.
